(** * Weather-alert widget (src/index.js): shallow embedding and properties

    The widget reads a two-letter state code from an input control,
    validates it, issues one GET to the alerts endpoint and renders either a
    summary with a list of headlines or an error message.

    Modelling choices, all visible in the definitions below:
    - a JavaScript string is the list of its UTF-16 code units ([jsstring]);
    - [String.prototype.trim] is written out from the ECMAScript WhiteSpace
      and LineTerminator tables;
    - [String.prototype.toUpperCase] is written out for strings made of
      Basic Latin code units; on any other string it is the host's Unicode
      mapping, a Section variable ([unicodeUpper]);
    - the page is four independent optional elements, addressed by their ids;
    - the network is an oracle from the requested URL to what [fetch]
      settles with, and every request is recorded;
    - functions that touch the page, the console or the network live in a
      state-and-exception monad [M] over [World]. *)

From Stdlib Require Import List NArith Bool String Ascii Lia.
From Stdlib Require Import DecimalString.
Import ListNotations.
Open Scope N_scope.

(** ** JavaScript strings *)

Definition jsstring := list N.

(** A literal of the source, as code units. *)
Definition lit (s : string) : jsstring :=
  map N_of_ascii (list_ascii_of_string s).

Definition jsstring_eqb (a b : jsstring) : bool :=
  if list_eq_dec N.eq_dec a b then true else false.

(** Template-literal conversion of a non-negative integer (a [length] or an
    HTTP status): its decimal digits. *)
Definition decimal (n : N) : jsstring :=
  lit (NilZero.string_of_uint (N.to_uint n)).

(** WhiteSpace and LineTerminator code points of ECMAScript, the ones
    [trim] strips: TAB LF VT FF CR SP NBSP, U+1680, U+2000..U+200A, LS, PS,
    U+202F, U+205F, U+3000 and the BOM. *)
Definition isWhiteSpace (c : N) : bool :=
  ((9 <=? c) && (c <=? 13)) || (c =? 32) || (c =? 160) || (c =? 5760)
  || ((8192 <=? c) && (c <=? 8202)) || (c =? 8232) || (c =? 8233)
  || (c =? 8239) || (c =? 8287) || (c =? 12288) || (c =? 65279).

Fixpoint trimStart (s : jsstring) : jsstring :=
  match s with
  | c :: s' => if isWhiteSpace c then trimStart s' else s
  | [] => []
  end.

Definition trimEnd (s : jsstring) : jsstring := rev (trimStart (rev s)).

Definition trim (s : jsstring) : jsstring := trimEnd (trimStart s).

Definition isBasicLatin (c : N) : bool := c <? 128.

(** [a]..[z] go to [A]..[Z]; no other Basic Latin character has an
    uppercase mapping. *)
Definition upperBasicLatin (c : N) : N :=
  if (97 <=? c) && (c <=? 122) then c - 32 else c.

Definition isAZ (c : N) : bool := (65 <=? c) && (c <=? 90).

(** A letter of Basic Latin, of either case. *)
Definition isLetter (c : N) : bool := isAZ c || ((97 <=? c) && (c <=? 122)).

(** [/^[A-Z]{2}$/.test(s)]: no flags, so [$] is the end of the input. *)
Definition test_AZ2 (s : jsstring) : bool :=
  match s with
  | [a; b] => isAZ a && isAZ b
  | _ => false
  end.

(** ** Values, errors, completions *)

(** The values [validateStateInput] is applied to or returns. *)
Inductive JsVal :=
  | JsUndefined
  | JsNull
  | JsBool (b : bool)
  | JsString (s : jsstring).

(** Places where the engine itself raises a [TypeError]. *)
Inductive Fault :=
  | ReadOfNull (property : jsstring)      (* null.property *)
  | NotAFunction (callee : jsstring).     (* x.m() where x.m is undefined *)

Inductive JsError :=
  | Error (message : jsstring)             (* new Error(message) *)
  | TypeError (f : Fault)                  (* raised by the engine *)
  | HostError (message : jsstring).        (* what fetch / json() reject with *)

Inductive Completion (A : Type) :=
  | Normal (a : A)
  | Throw (e : JsError).
Arguments Normal {A} a.
Arguments Throw {A} e.

Definition isThrow {A} (c : Completion A) : bool :=
  match c with Throw _ => true | Normal _ => false end.

(** ** The parsed response body

    [response.json()] yields a JSON value.  The model covers the schema of
    the alerts endpoint with every position as loose as JSON allows: the
    body is [null], an object, or a value with no members to read (a
    number, a string, a boolean, an array); an object member is missing,
    [null] or a value of the schema's type; an entry of [features] is
    [null] or an alert.  A member holding a value of another type than the
    schema's is outside the model. *)

Inductive Field (A : Type) :=
  | Absent
  | Null
  | Present (a : A).
Arguments Absent {A}.
Arguments Null {A}.
Arguments Present {A} a.

Record Properties := { headline : Field jsstring }.

Record Alert := { properties : Field Properties }.

Record AlertResponse := {
  title : Field jsstring;
  features : Field (list (option Alert))
}.

Inductive Json :=
  | JsonNull
  | JsonObject (r : AlertResponse)
  | JsonOther.

(** Reading [title] and [features] off a value that is not an object
    gives [undefined]. *)
Definition noMembers : AlertResponse := {| title := Absent; features := Absent |}.

(** [x || d] for a member that holds a string: [undefined], [null] and the
    empty string are falsy. *)
Definition orElse (x : Field jsstring) (d : jsstring) : jsstring :=
  match x with
  | Present (c :: s) => c :: s
  | _ => d
  end.

(** [properties?.headline]: [undefined] when [properties] is missing or
    [null]. *)
Definition optionalHeadline (p : Field Properties) : Field jsstring :=
  match p with
  | Present p => headline p
  | _ => Absent
  end.

(** The [features] sequence, empty when the member is missing or [null]. *)
Definition alertsOf (r : AlertResponse) : list (option Alert) :=
  match features r with
  | Present l => l
  | _ => []
  end.

(** ** The page, the console and the network *)

Inductive Node :=
  | PNode (className textContent : jsstring)
  | ULNode (className : jsstring) (items : list jsstring).   (* li texts *)

Record ErrorDiv := { err_textContent : jsstring; err_classList : list jsstring }.

Record Input := { value : jsstring }.

Record Button := { disabled : bool; btn_textContent : jsstring }.

(** One optional element per id: [alerts-display] (its children),
    [error-message], [state-input], [fetch-alerts]. *)
Record Document := {
  alerts_display : option (list Node);
  error_message : option ErrorDiv;
  state_input : option Input;
  fetch_alerts : option Button
}.

Inductive LogArg :=
  | ArgString (s : jsstring)
  | ArgData (d : Json).

Inductive LogEntry :=
  | ConsoleError (m : jsstring)
  | ConsoleLog (label : jsstring) (arg : LogArg).

Record Response := {
  status : N;
  statusText : jsstring;
  json : Completion Json          (* what [response.json()] settles with *)
}.

(** [response.ok]: the status is in the range 200-299. *)
Definition ok (r : Response) : bool := (200 <=? status r) && (status r <=? 299).

Record World := {
  document : Document;
  console : list LogEntry;
  network : jsstring -> Completion Response;   (* what [fetch(url)] settles with *)
  requests : list jsstring                     (* URLs fetched so far *)
}.

Definition with_document (f : Document -> Document) (w : World) : World :=
  {| document := f (document w); console := console w;
     network := network w; requests := requests w |}.

Definition with_console (f : list LogEntry -> list LogEntry) (w : World) : World :=
  {| document := document w; console := f (console w);
     network := network w; requests := requests w |}.

Definition with_requests (f : list jsstring -> list jsstring) (w : World) : World :=
  {| document := document w; console := console w;
     network := network w; requests := f (requests w) |}.

Definition set_alerts_display (x : option (list Node)) (d : Document) : Document :=
  {| alerts_display := x; error_message := error_message d;
     state_input := state_input d; fetch_alerts := fetch_alerts d |}.

Definition set_error_message (x : option ErrorDiv) (d : Document) : Document :=
  {| alerts_display := alerts_display d; error_message := x;
     state_input := state_input d; fetch_alerts := fetch_alerts d |}.

Definition set_state_input (x : option Input) (d : Document) : Document :=
  {| alerts_display := alerts_display d; error_message := error_message d;
     state_input := x; fetch_alerts := fetch_alerts d |}.

Definition set_fetch_alerts (x : option Button) (d : Document) : Document :=
  {| alerts_display := alerts_display d; error_message := error_message d;
     state_input := state_input d; fetch_alerts := x |}.

(** [classList.add] and [classList.remove] on an ordered set of tokens. *)
Definition classList_add (t : jsstring) (l : list jsstring) : list jsstring :=
  if existsb (jsstring_eqb t) l then l else l ++ [t].

Definition classList_remove (t : jsstring) (l : list jsstring) : list jsstring :=
  filter (fun u => negb (jsstring_eqb t u)) l.

(** ** The monad of effectful functions *)

Definition M (A : Type) : Type := World -> Completion A * World.

Definition ret {A} (a : A) : M A := fun w => (Normal a, w).

Definition throw {A} (e : JsError) : M A := fun w => (Throw e, w).

Definition bind {A B} (m : M A) (k : A -> M B) : M B :=
  fun w =>
    match m w with
    | (Normal a, w') => k a w'
    | (Throw e, w') => (Throw e, w')
    end.

Notation "x <- m ;; k" := (bind m (fun x => k))
  (at level 61, m at next level, right associativity).
Notation "m ;; k" := (bind m (fun _ => k))
  (at level 61, right associativity).

Definition gets {A} (f : World -> A) : M A := fun w => (Normal (f w), w).

Definition modify (f : World -> World) : M unit := fun w => (Normal tt, f w).

(** The completion of a call that touches nothing of the world. *)
Definition complete {A} (c : Completion A) : M A := fun w => (c, w).

(** Settling of an awaited promise. *)
Definition await {A} (c : Completion A) : M A := complete c.

(** [try { body } catch (error) { handler }] *)
Definition try_catch {A} (body : M A) (handler : JsError -> M A) : M A :=
  fun w =>
    match body w with
    | (Normal a, w') => (Normal a, w')
    | (Throw e, w') => handler e w'
    end.

(** [try { body } catch (error) { handler } finally { fin }]: [fin] runs
    whatever the first two did; its own exception, if any, wins. *)
Definition try_catch_finally {A} (body : M A) (handler : JsError -> M A)
    (fin : M unit) : M A :=
  fun w =>
    let (c, w') := try_catch body handler w in
    match fin w' with
    | (Normal _, w'') => (c, w'')
    | (Throw e, w'') => (Throw e, w'')
    end.

Definition getElementById {A} (id : Document -> option A) : M (option A) :=
  gets (fun w => id (document w)).

Definition console_error (m : jsstring) : M unit :=
  modify (with_console (fun l => l ++ [ConsoleError m])).

Definition console_log (label : jsstring) (arg : LogArg) : M unit :=
  modify (with_console (fun l => l ++ [ConsoleLog label arg])).

(** [fetch(url)]: the request is issued, then the promise settles. *)
Definition fetch (url : jsstring) : M Response :=
  fun w => (network w url, with_requests (fun l => l ++ [url]) w).

Definition API_BASE_URL : jsstring := lit "https://api.weather.gov".

(** The request URL, [`${API_BASE_URL}/alerts/active?area=${state}`]. *)
Definition alertsUrl (state : jsstring) : jsstring :=
  API_BASE_URL ++ lit "/alerts/active?area=" ++ state.

(** The message of the error raised on a response that is not [ok],
    [`API Error: ${response.status} ${response.statusText}`]. *)
Definition apiError (r : Response) : jsstring :=
  lit "API Error: " ++ decimal (status r) ++ lit " " ++ statusText r.

Definition defaultTitle : jsstring :=
  lit "Current watches, warnings, and advisories".

Definition noHeadline : jsstring := lit "No headline available".

Definition loadingLabel : jsstring := lit "Loading...".

Definition buttonLabel : jsstring := lit "Get Weather Alerts".

(** [alert.properties?.headline || 'No headline available'] for an entry
    that is an alert record. *)
Definition itemText (a : Alert) : jsstring :=
  orElse (optionalHeadline (properties a)) noHeadline.

(** The two states the handler puts the trigger control in. *)
Definition busy : Button := {| disabled := true; btn_textContent := loadingLabel |}.

Definition idle : Button := {| disabled := false; btn_textContent := buttonLabel |}.

Definition emptyMessage : jsstring := lit "Please enter a state abbreviation".
Definition formatMessage : jsstring :=
  lit "State abbreviation must be exactly 2 letters".

(** ** Concrete hosts and pages, for closed instances *)

Definition idUpper (s : jsstring) : jsstring := s.

(** V8's wording. *)
Definition v8Message (f : Fault) : jsstring :=
  match f with
  | ReadOfNull p =>
      lit "Cannot read properties of null (reading '" ++ p ++ lit "')"
  | NotAFunction c => c ++ lit " is not a function"
  end.

Definition page (v : jsstring) (label : jsstring) : Document :=
  {| alerts_display := Some [];
     error_message := Some {| err_textContent := []; err_classList := [lit "hidden"] |};
     state_input := Some {| value := v |};
     fetch_alerts := Some {| disabled := false; btn_textContent := label |} |}.

Definition world (d : Document) (net : jsstring -> Completion Response) : World :=
  {| document := d; console := []; network := net; requests := [] |}.

Definition offline (url : jsstring) : Completion Response :=
  Throw (HostError (lit "Failed to fetch")).

Definition respond (r : Response) (url : jsstring) : Completion Response :=
  Normal r.

Definition twoAlerts : Json :=
  JsonObject {| title := Present (lit "T");
                features := Present
                  [Some {| properties := Present {| headline := Present (lit "H1") |} |};
                   Some {| properties := Present {| headline := Absent |} |}] |}.

Definition ok200 (body : Completion Json) : Response :=
  {| status := 200; statusText := lit "OK"; json := body |}.

Definition status500 : Response :=
  {| status := 500; statusText := lit "Internal Server Error";
     json := Throw (HostError (lit "Unexpected end of JSON input")) |}.

(** The page of the widget with [v] typed in, answered with [body]. *)
Definition session (v : jsstring) (body : Completion Json) : World :=
  world (page v buttonLabel) (respond (ok200 body)).

Definition blankPage : Document :=
  {| alerts_display := None; error_message := None;
     state_input := None; fetch_alerts := None |}.

(** ** The rendering as the specification words it

    The title is the [title] member, or the default when the member is
    absent; an item is the alert's headline, or the placeholder when the
    headline is missing.  These follow the specification's sentences, not
    the code, and are compared with the code below. *)

Definition spec_title (r : AlertResponse) : jsstring :=
  match title r with
  | Present t => t
  | _ => defaultTitle
  end.

Definition spec_headline (a : Alert) : jsstring :=
  match optionalHeadline (properties a) with
  | Present h => h
  | _ => noHeadline
  end.

Definition spec_renderSuccess (r : AlertResponse) (l : list Alert) : list Node :=
  PNode (lit "summary-message")
        (spec_title r ++ lit ": " ++ decimal (N.of_nat (List.length l)))
  :: match l with
     | [] => []
     | _ => [ULNode (lit "alerts-list") (map spec_headline l)]
     end.

(** ** The program *)

Section Engine.

(** The host's uppercase mapping on strings that contain a code unit
    outside Basic Latin. *)
Variable unicodeUpper : jsstring -> jsstring.

(** The text the engine puts in the [message] of a [TypeError] it raises. *)
Variable faultMessage : Fault -> jsstring.

Definition toUpperCase (s : jsstring) : jsstring :=
  if forallb isBasicLatin s then map upperBasicLatin s else unicodeUpper s.

Definition message (e : JsError) : jsstring :=
  match e with
  | Error m => m
  | TypeError f => faultMessage f
  | HostError m => m
  end.

(** [validateStateInput(state)], lines 115-127.  [!state] holds of
    [undefined], [null], [false] and the empty string; [true] has no [trim]
    method, so calling it is a [TypeError]. *)
Definition validateStateInput (state : JsVal) : Completion JsVal :=
  match state with
  | JsUndefined | JsNull | JsBool false => Throw (Error emptyMessage)
  | JsBool true => Throw (TypeError (NotAFunction (lit "state.trim")))
  | JsString s =>
      if jsstring_eqb s [] || jsstring_eqb (trim s) []
      then Throw (Error emptyMessage)
      else
        let trimmedState := toUpperCase (trim s) in
        if negb (N.of_nat (List.length trimmedState) =? 2) || negb (test_AZ2 trimmedState)
        then Throw (Error formatMessage)
        else Normal (JsBool true)
  end.

(** The callback of [features.forEach], lines 60-65: the text of the list
    item for one entry.  Reading [properties] of a [null] entry raises;
    [?.] stops at a missing or [null] [properties]. *)
Definition headlineOf (alert : option Alert) : Completion jsstring :=
  match alert with
  | None => Throw (TypeError (ReadOfNull (lit "properties")))
  | Some a => Normal (itemText a)
  end.

(** [features.forEach(...)] appending one [li] per entry to the list under
    construction; an exception leaves the loop. *)
Fixpoint forEach (l : list (option Alert)) (items : list jsstring)
    : Completion (list jsstring) :=
  match l with
  | [] => Normal items
  | alert :: l' =>
      match headlineOf alert with
      | Normal h => forEach l' (items ++ [h])
      | Throw e => Throw e
      end
  end.

Definition appendChild (n : Node) : M unit :=
  modify (with_document (fun d =>
    set_alerts_display (option_map (fun c => c ++ [n]) (alerts_display d)) d)).

(** [displayAlerts(data)], lines 34-69. *)
Definition displayAlerts (data : Json) : M unit :=
  alertsDisplay <- getElementById alerts_display ;;
  match alertsDisplay with
  | None => console_error (lit "Alerts display element not found")
  | Some _ =>
      modify (with_document (set_alerts_display (Some []))) ;;
      r <- match data with
           | JsonNull => throw (TypeError (ReadOfNull (lit "title")))
           | JsonObject r => ret r
           | JsonOther => ret noMembers
           end ;;
      let title := orElse (title r) defaultTitle in
      let alertCount :=
        match features r with
        | Present l => N.of_nat (List.length l)
        | _ => 0
        end in
      let summaryMessage :=
        PNode (lit "summary-message") (title ++ lit ": " ++ decimal alertCount) in
      appendChild summaryMessage ;;
      match features r with
      | Present (alert :: l) =>
          items <- complete (forEach (alert :: l) []) ;;
          appendChild (ULNode (lit "alerts-list") items)
      | _ => ret tt
      end
  end.

(** [displayError(message)], lines 75-85. *)
Definition displayError (msg : jsstring) : M unit :=
  errorDiv <- getElementById error_message ;;
  match errorDiv with
  | None => console_error (lit "Error message element not found")
  | Some e =>
      modify (with_document (set_error_message (Some
        {| err_textContent := msg;
           err_classList := classList_remove (lit "hidden") (err_classList e) |})))
  end.

(** [clearError()], lines 90-97. *)
Definition clearError : M unit :=
  errorDiv <- getElementById error_message ;;
  match errorDiv with
  | Some e =>
      modify (with_document (set_error_message (Some
        {| err_textContent := [];
           err_classList := classList_add (lit "hidden") (err_classList e) |})))
  | None => ret tt
  end.

(** [clearInput()], lines 102-108. *)
Definition clearInput : M unit :=
  stateInput <- getElementById state_input ;;
  match stateInput with
  | Some _ => modify (with_document (set_state_input (Some {| value := [] |})))
  | None => ret tt
  end.

(** [fetchWeatherAlerts(state)], lines 13-28. *)
Definition fetchWeatherAlerts (state : jsstring) : M Json :=
  try_catch
    (response <- fetch (alertsUrl state) ;;
     (if negb (ok response)
      then throw (Error (apiError response))
      else ret tt) ;;
     data <- await (json response) ;;
     console_log (lit "Fetched data:") (ArgData data) ;;
     ret data)
    (fun error =>
       console_log (lit "Error:") (ArgString (message error)) ;;
       throw error).

(** The [try] block of [handleGetAlerts], lines 152-166. *)
Definition tryBlock (stateValue : jsstring) : M unit :=
  complete (validateStateInput (JsString stateValue)) ;;
  let normalizedState := toUpperCase (trim stateValue) in
  data <- fetchWeatherAlerts normalizedState ;;
  displayAlerts data ;;
  clearInput.

(** Writes through the [fetchButton] reference, guarded by
    [if (fetchButton)]. *)
Definition setButton (b : Button) : M unit :=
  modify (with_document (fun d =>
    set_fetch_alerts (option_map (fun _ => b) (fetch_alerts d)) d)).

(** [handleGetAlerts()], lines 132-177. *)
Definition handleGetAlerts : M unit :=
  stateInput <- getElementById state_input ;;
  match stateInput with
  | None => console_error (lit "State input element not found")
  | Some i =>
      let stateValue := value i in
      clearError ;;
      setButton busy ;;
      try_catch_finally
        (tryBlock stateValue)
        (fun error => displayError (message error))
        (setButton idle)
  end.

(** The three stages of the [try] block all complete: validation, the
    fetch for the normalized code, and the rendering of what it returned.
    Whether the last two complete depends on the world only through the
    network and the presence of the display ([succeeds_ext] below), which
    the steps before them do not touch. *)
Definition succeeds (stateValue : jsstring) (w : World) : Prop :=
  exists data,
    validateStateInput (JsString stateValue) = Normal (JsBool true) /\
    fst (fetchWeatherAlerts (toUpperCase (trim stateValue)) w) = Normal data /\
    fst (displayAlerts data w) = Normal tt.

(** ** Frames: what an operation leaves alone *)

(** [keeps f m]: running [m] does not change the observation [f]. *)
Definition keeps {A B} (f : World -> A) (m : M B) : Prop :=
  forall w, f (snd (m w)) = f w.

(** The observations the properties below are about. *)
Definition the_input (w : World) : option Input := state_input (document w).

Definition the_error (w : World) : option ErrorDiv := error_message (document w).

Definition the_display (w : World) : option (list Node) :=
  alerts_display (document w).


Definition has_button (w : World) : bool :=
  match fetch_alerts (document w) with Some _ => true | None => false end.

Definition has_display (w : World) : bool :=
  match alerts_display (document w) with Some _ => true | None => false end.

(** [returns m]: [m] never raises. *)
Definition returns (m : M unit) : Prop :=
  forall w, fst (m w) = Normal tt.

(** ** Strings: trimming, case and the pattern *)

Ltac bool_cases :=
  repeat match goal with
  | |- context [?a <=? ?b] => destruct (N.leb_spec a b)
  | |- context [?a <? ?b] => destruct (N.ltb_spec a b)
  | |- context [?a =? ?b] => destruct (N.eqb_spec a b)
  | H : context [?a <=? ?b] |- _ => destruct (N.leb_spec a b)
  | H : context [?a <? ?b] |- _ => destruct (N.ltb_spec a b)
  | H : context [?a =? ?b] |- _ => destruct (N.eqb_spec a b)
  end; simpl in *; try reflexivity; try discriminate; try lia.

Lemma jsstring_eqb_eq (a b : jsstring) : jsstring_eqb a b = true <-> a = b.
Proof.
  unfold jsstring_eqb. destruct (list_eq_dec N.eq_dec a b); split; congruence.
Qed.

Lemma jsstring_eqb_nil (s : jsstring) :
  jsstring_eqb s [] = match s with [] => true | _ => false end.
Proof.
  destruct s; unfold jsstring_eqb;
    match goal with |- context [list_eq_dec ?d ?a ?b] =>
      destruct (list_eq_dec d a b) end; congruence.
Qed.

Lemma isAZ_range (c : N) : isAZ c = true -> 65 <= c <= 90.
Proof. unfold isAZ. intros H. bool_cases. Qed.

Lemma isAZ_not_space (c : N) : isAZ c = true -> isWhiteSpace c = false.
Proof.
  intros H. apply isAZ_range in H. unfold isWhiteSpace.
  repeat match goal with
  | |- context [c =? ?k] =>
      replace (c =? k) with false by (symmetry; apply N.eqb_neq; lia)
  | |- context [c <=? ?k] =>
      replace (c <=? k) with false by (symmetry; apply N.leb_gt; lia)
  | |- context [?k <=? c] =>
      replace (k <=? c) with false by (symmetry; apply N.leb_gt; lia)
  end.
  rewrite !andb_false_r. reflexivity.
Qed.

Lemma isAZ_basic (c : N) : isAZ c = true -> isBasicLatin c = true.
Proof. unfold isAZ, isBasicLatin. intros H. bool_cases. Qed.

Lemma isAZ_upper (c : N) : isAZ c = true -> upperBasicLatin c = c.
Proof. unfold isAZ, upperBasicLatin. intros H. bool_cases. Qed.

Lemma test_AZ2_inv (s : jsstring) :
  test_AZ2 s = true ->
  exists a b, s = [a; b] /\ isAZ a = true /\ isAZ b = true.
Proof.
  destruct s as [|a [|b [|c s]]]; simpl; try discriminate.
  intros H. apply andb_true_iff in H. exists a, b. tauto.
Qed.

Lemma test_AZ2_length (s : jsstring) :
  test_AZ2 s = true -> (N.of_nat (List.length s) =? 2) = true.
Proof.
  intros H. destruct (test_AZ2_inv s H) as (a & b & -> & _). reflexivity.
Qed.

Lemma trim_AZ2 (s : jsstring) : test_AZ2 s = true -> trim s = s.
Proof.
  intros H. destruct (test_AZ2_inv s H) as (a & b & -> & Ha & Hb).
  unfold trim, trimEnd. simpl.
  rewrite (isAZ_not_space a Ha). simpl.
  rewrite (isAZ_not_space b Hb). reflexivity.
Qed.

Lemma toUpperCase_AZ2 (s : jsstring) : test_AZ2 s = true -> toUpperCase s = s.
Proof.
  intros H. destruct (test_AZ2_inv s H) as (a & b & -> & Ha & Hb).
  unfold toUpperCase. simpl.
  rewrite (isAZ_basic a Ha), (isAZ_basic b Hb). simpl.
  rewrite (isAZ_upper a Ha), (isAZ_upper b Hb). reflexivity.
Qed.

Lemma toUpperCase_nil : toUpperCase [] = [].
Proof. reflexivity. Qed.

(** What [validateStateInput] does on a string, by the pattern alone. *)
Lemma validateStateInput_string (s : jsstring) :
  validateStateInput (JsString s) =
    if jsstring_eqb (trim s) [] then Throw (Error emptyMessage)
    else if test_AZ2 (toUpperCase (trim s)) then Normal (JsBool true)
    else Throw (Error formatMessage).
Proof.
  unfold validateStateInput.
  assert (E : jsstring_eqb s [] || jsstring_eqb (trim s) [] = jsstring_eqb (trim s) []).
  { rewrite (jsstring_eqb_nil s). destruct s; reflexivity. }
  rewrite E. destruct (jsstring_eqb (trim s) []); [reflexivity|].
  cbv zeta. destruct (test_AZ2 (toUpperCase (trim s))) eqn:T.
  - rewrite (test_AZ2_length _ T). reflexivity.
  - simpl. rewrite orb_true_r. reflexivity.
Qed.

Lemma validateStateInput_match (s : jsstring) :
  test_AZ2 (toUpperCase (trim s)) = true ->
  validateStateInput (JsString s) = Normal (JsBool true).
Proof.
  intros T. rewrite validateStateInput_string, T.
  destruct (jsstring_eqb (trim s) []) eqn:E; [|reflexivity].
  apply jsstring_eqb_eq in E. rewrite E in T. discriminate.
Qed.

Lemma validateStateInput_Normal_inv (s : jsstring) (v : JsVal) :
  validateStateInput (JsString s) = Normal v ->
  v = JsBool true /\ test_AZ2 (toUpperCase (trim s)) = true.
Proof.
  rewrite validateStateInput_string.
  destruct (jsstring_eqb (trim s) []); [discriminate|].
  destruct (test_AZ2 (toUpperCase (trim s))); [|discriminate].
  intros H. injection H as <-. split; reflexivity.
Qed.

(** C2: on a string, [validateStateInput] throws exactly when the trimmed,
    uppercased input does not match [^[A-Z]{2}$]: the empty-input error when
    the trimmed input is empty, the wrong-format error when the trimmed,
    uppercased input is not empty and does not match, and no exception when
    it matches. *)
Theorem validateStateInput_throws_iff_invalid (s : jsstring) :
  (isThrow (validateStateInput (JsString s)) = true
     <-> test_AZ2 (toUpperCase (trim s)) = false) /\
  (trim s = [] ->
     validateStateInput (JsString s) = Throw (Error emptyMessage)) /\
  (toUpperCase (trim s) <> [] -> test_AZ2 (toUpperCase (trim s)) = false ->
     validateStateInput (JsString s) = Throw (Error formatMessage)) /\
  (test_AZ2 (toUpperCase (trim s)) = true ->
     validateStateInput (JsString s) = Normal (JsBool true)).
Proof.
  repeat split.
  - intros H. destruct (test_AZ2 (toUpperCase (trim s))) eqn:T; [|reflexivity].
    rewrite (validateStateInput_match s T) in H. discriminate.
  - intros T. rewrite validateStateInput_string, T.
    destruct (jsstring_eqb (trim s) []); reflexivity.
  - intros E. rewrite validateStateInput_string, E. reflexivity.
  - intros NE T. rewrite validateStateInput_string, T.
    destruct (jsstring_eqb (trim s) []) eqn:E; [|reflexivity].
    apply jsstring_eqb_eq in E. rewrite E in NE. contradiction.
  - apply validateStateInput_match.
Qed.

(** ** Frame rules *)

Lemma keeps_ret {A B} (f : World -> A) (b : B) : keeps f (ret b).
Proof. intros w. reflexivity. Qed.

Lemma keeps_throw {A B} (f : World -> A) (e : JsError) : keeps f (@throw B e).
Proof. intros w. reflexivity. Qed.

Lemma keeps_complete {A B} (f : World -> A) (c : Completion B) :
  keeps f (complete c).
Proof. intros w. reflexivity. Qed.

Lemma keeps_gets {A B} (f : World -> A) (g : World -> B) : keeps f (gets g).
Proof. intros w. reflexivity. Qed.

Lemma keeps_modify {A} (f : World -> A) (g : World -> World) :
  (forall w, f (g w) = f w) -> keeps f (modify g).
Proof. intros H w. apply H. Qed.

Lemma keeps_bind {A B C} (f : World -> A) (m : M B) (k : B -> M C) :
  keeps f m -> (forall b, keeps f (k b)) -> keeps f (bind m k).
Proof.
  intros Hm Hk w. unfold bind. specialize (Hm w).
  destruct (m w) as [[b|e] w']; simpl in *.
  - rewrite Hk. exact Hm.
  - exact Hm.
Qed.

Lemma keeps_try_catch {A B} (f : World -> A) (m : M B) (h : JsError -> M B) :
  keeps f m -> (forall e, keeps f (h e)) -> keeps f (try_catch m h).
Proof.
  intros Hm Hh w. unfold try_catch. specialize (Hm w).
  destruct (m w) as [[b|e] w']; simpl in *.
  - exact Hm.
  - rewrite Hh. exact Hm.
Qed.

Lemma keeps_try_catch_finally {A B} (f : World -> A) (m : M B)
    (h : JsError -> M B) (fin : M unit) :
  keeps f m -> (forall e, keeps f (h e)) -> keeps f fin ->
  keeps f (try_catch_finally m h fin).
Proof.
  intros Hm Hh Hf w. unfold try_catch_finally.
  pose proof (keeps_try_catch f m h Hm Hh w) as H.
  destruct (try_catch m h w) as [c w']. simpl in H.
  specialize (Hf w'). destruct (fin w') as [[u|e] w'']; simpl in *; congruence.
Qed.

Lemma keeps_fetch {A} (f : World -> A) (url : jsstring) :
  (forall w g, f (with_requests g w) = f w) -> keeps f (fetch url).
Proof. intros H w. apply H. Qed.

Ltac frame_step :=
  first
    [ apply keeps_ret | apply keeps_throw | apply keeps_complete
    | apply keeps_gets
    | apply keeps_bind; [|intros]
    | apply keeps_try_catch; [|intros]
    | apply keeps_modify; intros; reflexivity
    | apply keeps_fetch; intros; reflexivity
    | match goal with
      | |- keeps _ (match ?x with _ => _ end) => destruct x
      end ].

Ltac frame :=
  unfold getElementById, console_error, console_log, appendChild, await;
  repeat frame_step.

Lemma clearError_frame :
  keeps the_input clearError /\ keeps has_button clearError /\
  keeps has_display clearError /\ keeps requests clearError /\
  keeps network clearError.
Proof. unfold clearError. repeat split; frame. Qed.

Lemma displayError_frame (m : jsstring) :
  keeps the_input (displayError m) /\ keeps has_button (displayError m) /\
  keeps requests (displayError m) /\ keeps network (displayError m).
Proof. unfold displayError. repeat split; frame. Qed.

Lemma clearInput_frame :
  keeps has_button clearInput /\ keeps requests clearInput /\
  keeps network clearInput.
Proof. unfold clearInput. repeat split; frame. Qed.

Lemma setButton_frame (b : Button) :
  keeps the_input (setButton b) /\ keeps has_button (setButton b) /\
  keeps has_display (setButton b) /\ keeps requests (setButton b) /\
  keeps network (setButton b).
Proof.
  unfold setButton. repeat split; frame.
  apply keeps_modify. intros w. unfold has_button. simpl.
  destruct (fetch_alerts (document w)); reflexivity.
Qed.

Lemma displayAlerts_frame (d : Json) :
  keeps the_input (displayAlerts d) /\ keeps has_button (displayAlerts d) /\
  keeps requests (displayAlerts d) /\ keeps network (displayAlerts d).
Proof. unfold displayAlerts. repeat split; frame. Qed.

Lemma fetchWeatherAlerts_frame (state : jsstring) :
  keeps the_input (fetchWeatherAlerts state) /\
  keeps has_button (fetchWeatherAlerts state) /\
  keeps has_display (fetchWeatherAlerts state) /\
  keeps network (fetchWeatherAlerts state).
Proof. unfold fetchWeatherAlerts. repeat split; frame. Qed.


(** ** Operations that never raise *)

Lemma clearError_returns : returns clearError.
Proof.
  intros w. unfold clearError, bind, getElementById, gets.
  destruct (error_message (document w)); reflexivity.
Qed.

Lemma displayError_returns (m : jsstring) : returns (displayError m).
Proof.
  intros w. unfold displayError, bind, getElementById, gets.
  destruct (error_message (document w)); reflexivity.
Qed.

Lemma setButton_returns (b : Button) : returns (setButton b).
Proof. intros w. reflexivity. Qed.

Lemma run_returns (m : M unit) (w : World) :
  returns m -> m w = (Normal tt, snd (m w)).
Proof. intros H. specialize (H w). destruct (m w). simpl in *. congruence. Qed.

(** ** The trigger handler, step by step *)

(** With the input control on the page, the handler clears the error,
    enters the busy state, runs the [try] block with its [catch], and
    leaves the busy state; it returns normally. *)
Lemma handleGetAlerts_run (w : World) (i : Input) :
  state_input (document w) = Some i ->
  handleGetAlerts w =
    (Normal tt,
     snd (setButton idle
       (snd (try_catch (tryBlock (value i))
               (fun error => displayError (message error))
               (snd (setButton busy (snd (clearError w)))))))).
Proof.
  intros H.
  match goal with |- _ = ?r => set (rhs := r) end.
  unfold handleGetAlerts.
  unfold bind at 1. unfold getElementById, gets. rewrite H.
  unfold bind at 1. rewrite (run_returns _ w clearError_returns).
  unfold bind at 1.
  rewrite (run_returns _ _ (setButton_returns busy)).
  unfold try_catch_finally. subst rhs.
  set (w1 := snd (setButton busy (snd (clearError w)))).
  assert (E : fst (try_catch (tryBlock (value i))
                     (fun error => displayError (message error)) w1) = Normal tt).
  { unfold try_catch. destruct (tryBlock (value i) w1) as [[[]|e] w2]; simpl.
    - reflexivity.
    - apply displayError_returns. }
  destruct (try_catch (tryBlock (value i))
              (fun error => displayError (message error)) w1) as [c w3].
  simpl in E. subst c.
  rewrite (run_returns _ w3 (setButton_returns idle)). reflexivity.
Qed.

(** ** The fetch *)

Ltac run :=
  cbv beta iota zeta delta
    [fetchWeatherAlerts displayAlerts displayError clearError clearInput
     setButton appendChild try_catch getElementById console_error console_log
     fetch await complete bind ret throw gets modify
     with_document with_console with_requests
     set_alerts_display set_error_message set_state_input set_fetch_alerts
     document console network requests
     alerts_display error_message state_input fetch_alerts
     the_input has_button has_display option_map negb fst snd].

(** The completion of [fetchWeatherAlerts] is decided by what the network
    answers for the alerts URL. *)
Lemma fetchWeatherAlerts_fst (state : jsstring) (w : World) :
  fst (fetchWeatherAlerts state w) =
    match network w (alertsUrl state) with
    | Throw e => Throw e
    | Normal r => if ok r then json r else Throw (Error (apiError r))
    end.
Proof.
  destruct w as [doc con net rq]. run.
  destruct (net (alertsUrl state)) as [r|e]; [|reflexivity].
  destruct (ok r); [|reflexivity].
  destruct (json r); reflexivity.
Qed.

Lemma fetchWeatherAlerts_requests (state : jsstring) (w : World) :
  requests (snd (fetchWeatherAlerts state w)) = requests w ++ [alertsUrl state].
Proof.
  destruct w as [doc con net rq]. run.
  destruct (net (alertsUrl state)) as [r|e]; [|reflexivity].
  destruct (ok r); [|reflexivity].
  destruct (json r); reflexivity.
Qed.

(** C4: when the network answers the request with a response,
    [fetchWeatherAlerts] fails exactly when the status is outside 200-299 or
    the body does not parse; outside 200-299 the error's message is
    ["API Error: {status} {statusText}"]; on a 2xx response whose body parses
    it returns the parsed body. *)
Theorem fetchWeatherAlerts_fails_iff (state : jsstring) (w : World) (r : Response) :
  network w (alertsUrl state) = Normal r ->
  (isThrow (fst (fetchWeatherAlerts state w)) = true
     <-> ok r = false \/ isThrow (json r) = true) /\
  (ok r = false ->
     fst (fetchWeatherAlerts state w) =
       Throw (Error (lit "API Error: " ++ decimal (status r) ++ lit " "
                       ++ statusText r))) /\
  (forall d, ok r = true -> json r = Normal d ->
     fst (fetchWeatherAlerts state w) = Normal d).
Proof.
  intros H. rewrite fetchWeatherAlerts_fst, H. repeat split.
  - destruct (ok r); [right; assumption | left; reflexivity].
  - intros [E|E]; [rewrite E; reflexivity|].
    destruct (ok r); [assumption | reflexivity].
  - intros ->. reflexivity.
  - intros d -> E. exact E.
Qed.

(** ** The presenter *)

Lemma orElse_nonempty (s d : jsstring) : s <> [] -> orElse (Present s) d = s.
Proof. destruct s; [contradiction | reflexivity]. Qed.

Lemma orElse_default (x : Field jsstring) (d : jsstring) :
  (forall s, x = Present s -> s = []) -> orElse x d = d.
Proof.
  destruct x as [| |[|c s]]; try reflexivity.
  intros H. specialize (H _ eq_refl). discriminate.
Qed.

Lemma forEach_records (l : list Alert) (items : list jsstring) :
  forEach (map Some l) items = Normal (items ++ map itemText l).
Proof.
  revert items. induction l as [|a l IH]; intros items; simpl.
  - rewrite app_nil_r. reflexivity.
  - rewrite IH, <- app_assoc. reflexivity.
Qed.

(** What [displayAlerts] leaves in the display when the body is an object
    whose [features] entries are all alert records. *)
Lemma displayAlerts_records (w : World) (old : list Node)
    (r : AlertResponse) (l : list Alert) :
  alerts_display (document w) = Some old ->
  alertsOf r = map Some l ->
  displayAlerts (JsonObject r) w =
    (Normal tt,
     with_document (set_alerts_display (Some
       (PNode (lit "summary-message")
          (orElse (title r) defaultTitle ++ lit ": "
             ++ decimal (N.of_nat (List.length l)))
        :: match l with
           | [] => []
           | _ => [ULNode (lit "alerts-list") (map itemText l)]
           end))) w).
Proof.
  destruct w as [[ad em si fb] con net rq]. simpl. intros -> H.
  unfold alertsOf in H. run.
  destruct (features r) as [| |fl].
  - destruct l; [reflexivity | discriminate].
  - destruct l; [reflexivity | discriminate].
  - subst fl. rewrite length_map. destruct l as [|a l]; [reflexivity|].
    change (map Some (a :: l)) with (Some a :: map Some l).
    cbv beta iota. rewrite <- (map_cons Some a l), forEach_records.
    reflexivity.
Qed.

(** C3, amended: for a response object whose [features] entries are alert
    records, [displayAlerts] replaces the content of the display by the
    summary line ["{title}: {count}"], followed by the list element exactly
    when the count is positive, with one item per alert in response order.
    The title is the [title] member when it is a non-empty string and the
    default otherwise (absent, [null] or empty); the count is the length of
    [features], 0 when it is absent; an item is the alert's headline when it
    is a non-empty string and the placeholder otherwise. *)
Theorem displayAlerts_renders (w : World) (old : list Node)
    (r : AlertResponse) (l : list Alert) :
  alerts_display (document w) = Some old ->
  alertsOf r = map Some l ->
  (exists w',
     displayAlerts (JsonObject r) w = (Normal tt, w') /\
     alerts_display (document w') =
       Some (PNode (lit "summary-message")
               (orElse (title r) defaultTitle ++ lit ": "
                  ++ decimal (N.of_nat (List.length l)))
             :: if (0 <? N.of_nat (List.length l))
                then [ULNode (lit "alerts-list") (map itemText l)]
                else [])) /\
  (forall t, title r = Present t -> t <> [] -> orElse (title r) defaultTitle = t) /\
  ((forall t, title r = Present t -> t = []) ->
     orElse (title r) defaultTitle = defaultTitle) /\
  (forall a p h, In a l -> properties a = Present p -> headline p = Present h ->
     h <> [] -> itemText a = h) /\
  (forall a, In a l ->
     (forall p h, properties a = Present p -> headline p = Present h -> h = []) ->
     itemText a = noHeadline).
Proof.
  intros Hd Hl. repeat split.
  - eexists. split; [apply (displayAlerts_records w old r l Hd Hl)|].
    destruct l; reflexivity.
  - intros t -> Ht. apply orElse_nonempty, Ht.
  - apply orElse_default.
  - intros a p h _ Hp Hh Hne. unfold itemText. rewrite Hp. simpl. rewrite Hh.
    apply orElse_nonempty, Hne.
  - intros a _ H. unfold itemText. apply orElse_default.
    intros s Hs. destruct (properties a) as [| |p]; try discriminate.
    simpl in Hs. exact (H p s eq_refl Hs).
Qed.

(** C10, amended: in a response object whose [features] entries are all
    alert records (none is [null]), an entry whose [properties] member is
    absent or [null] raises nothing, neither in the callback nor in
    [displayAlerts] as a whole, and its item in the rendered list is the
    placeholder. *)
Theorem displayAlerts_missing_properties (w : World) (old : list Node)
    (r : AlertResponse) (l : list Alert) :
  alerts_display (document w) = Some old ->
  features r = Present (map Some l) ->
  fst (displayAlerts (JsonObject r) w) = Normal tt /\
  forall n a, nth_error l n = Some a ->
    properties a = Absent \/ properties a = Null ->
    headlineOf (Some a) = Normal noHeadline /\
    exists summary items,
      alerts_display (document (snd (displayAlerts (JsonObject r) w))) =
        Some [summary; ULNode (lit "alerts-list") items] /\
      nth_error items n = Some noHeadline.
Proof.
  intros Hd Hf.
  assert (Hl : alertsOf r = map Some l) by (unfold alertsOf; rewrite Hf; reflexivity).
  rewrite (displayAlerts_records w old r l Hd Hl). split; [reflexivity|].
  intros n a Hn Hp.
  assert (Ha : itemText a = noHeadline).
  { unfold itemText. destruct Hp as [-> | ->]; reflexivity. }
  split; [simpl; rewrite Ha; reflexivity|].
  destruct l as [|b l]; [destruct n; discriminate|].
  eexists. eexists. split; [reflexivity|].
  rewrite <- Ha. apply map_nth_error, Hn.
Qed.

(** C7, amended: without its target element no presenter operation raises
    or changes the page; [displayAlerts] and [displayError] log one
    diagnostic, [clearError] and [clearInput] log nothing. *)
Theorem presenter_without_target (w : World) :
  (forall d, alerts_display (document w) = None ->
     fst (displayAlerts d w) = Normal tt /\
     document (snd (displayAlerts d w)) = document w /\
     console (snd (displayAlerts d w)) =
       console w ++ [ConsoleError (lit "Alerts display element not found")]) /\
  (forall m, error_message (document w) = None ->
     fst (displayError m w) = Normal tt /\
     document (snd (displayError m w)) = document w /\
     console (snd (displayError m w)) =
       console w ++ [ConsoleError (lit "Error message element not found")]) /\
  (error_message (document w) = None -> clearError w = (Normal tt, w)) /\
  (state_input (document w) = None -> clearInput w = (Normal tt, w)).
Proof.
  destruct w as [[ad em si fb] con net rq]. simpl.
  repeat split; try (intros; subst; reflexivity).
Qed.

Lemma handleGetAlerts_world (w : World) (i : Input) :
  state_input (document w) = Some i ->
  snd (handleGetAlerts w) =
    snd (setButton idle
      (snd (try_catch (tryBlock (value i))
              (fun error => displayError (message error))
              (snd (setButton busy (snd (clearError w))))))).
Proof. intros H. rewrite (handleGetAlerts_run w i H). reflexivity. Qed.

(** ** The [try] block *)

Lemma tryBlock_invalid (v : jsstring) (e : JsError) (w : World) :
  validateStateInput (JsString v) = Throw e -> tryBlock v w = (Throw e, w).
Proof. intros H. unfold tryBlock, bind, complete. rewrite H. reflexivity. Qed.

Lemma tryBlock_valid (v : jsstring) (u : JsVal) (w : World) :
  validateStateInput (JsString v) = Normal u ->
  tryBlock v w =
    (data <- fetchWeatherAlerts (toUpperCase (trim v)) ;;
     displayAlerts data ;;
     clearInput) w.
Proof.
  intros H. unfold tryBlock. unfold bind at 1. unfold complete.
  rewrite H. reflexivity.
Qed.

Lemma tryBlock_requests (v : jsstring) (u : JsVal) (w : World) :
  validateStateInput (JsString v) = Normal u ->
  requests (snd (tryBlock v w)) = requests w ++ [alertsUrl (toUpperCase (trim v))].
Proof.
  intros H. rewrite (tryBlock_valid v u w H). unfold bind at 1.
  pose proof (fetchWeatherAlerts_requests (toUpperCase (trim v)) w) as F.
  destruct (fetchWeatherAlerts (toUpperCase (trim v)) w) as [[d|e] w2];
    simpl in F; [|exact F].
  rewrite <- F.
  apply (keeps_bind requests (displayAlerts d) (fun _ => clearInput)).
  - apply displayAlerts_frame.
  - intros _. apply clearInput_frame.
Qed.

(** The completion of [displayAlerts] depends on the world only through
    the presence of the display. *)
Lemma displayAlerts_fst (d : Json) (w w' : World) :
  has_display w = has_display w' ->
  fst (displayAlerts d w) = fst (displayAlerts d w').
Proof.
  destruct w as [[ad em si fb] con net rq].
  destruct w' as [[ad' em' si' fb'] con' net' rq'].
  unfold has_display. simpl. run.
  destruct ad, ad'; try discriminate; intros _; [|reflexivity].
  destruct d as [|r|]; [reflexivity| |reflexivity].
  destruct (features r) as [| |[|a fl]]; try reflexivity.
  destruct (forEach (a :: fl) []); reflexivity.
Qed.

Lemma succeeds_ext (v : jsstring) (w w' : World) :
  network w = network w' -> has_display w = has_display w' ->
  succeeds v w -> succeeds v w'.
Proof.
  intros Hn Hd (d & V & F & R). exists d. repeat split.
  - exact V.
  - rewrite fetchWeatherAlerts_fst in *. rewrite <- Hn. exact F.
  - rewrite <- (displayAlerts_fst d w w' Hd). exact R.
Qed.

Lemma clearInput_run (w : World) :
  fst (clearInput w) = Normal tt /\
  the_input (snd (clearInput w)) =
    option_map (fun _ => {| value := [] |}) (the_input w).
Proof.
  destruct w as [[ad em si fb] con net rq]. run.
  destruct si; split; reflexivity.
Qed.

(** Either all three stages complete, and then the block returns with the
    input emptied; or one of them raises, and the input is as it was. *)
Lemma tryBlock_cases (v : jsstring) (w : World) :
  (succeeds v w /\ fst (tryBlock v w) = Normal tt /\
   the_input (snd (tryBlock v w)) =
     option_map (fun _ => {| value := [] |}) (the_input w))
  \/
  (~ succeeds v w /\ isThrow (fst (tryBlock v w)) = true /\
   the_input (snd (tryBlock v w)) = the_input w).
Proof.
  destruct (validateStateInput (JsString v)) as [u|e] eqn:V.
  2:{ right. rewrite (tryBlock_invalid v e w V). repeat split.
      intros (d & V' & _). congruence. }
  destruct (validateStateInput_Normal_inv v u V) as [-> _].
  rewrite (tryBlock_valid v _ w V). unfold bind.
  pose proof (proj1 (fetchWeatherAlerts_frame (toUpperCase (trim v))) w) as Fi.
  pose proof (proj1 (proj2 (proj2 (fetchWeatherAlerts_frame (toUpperCase (trim v))))) w) as Fd.
  destruct (fetchWeatherAlerts (toUpperCase (trim v)) w) as [[d|e] w2] eqn:F;
    simpl in Fi, Fd.
  2:{ right. repeat split; [|exact Fi].
      intros (d & _ & F' & _). rewrite F in F'. discriminate. }
  pose proof (proj1 (displayAlerts_frame d) w2) as Di.
  pose proof (displayAlerts_fst d w2 w Fd) as Dc.
  destruct (displayAlerts d w2) as [[[]|e] w3] eqn:D; simpl in Di, Dc.
  - left. destruct (clearInput_run w3) as [C1 C2]. repeat split.
    + exists d. rewrite F. repeat split; [exact V | symmetry; exact Dc].
    + exact C1.
    + rewrite C2. congruence.
  - right. repeat split; [|simpl; congruence].
    intros (d' & _ & F' & D'). rewrite F in F'. simpl in F'.
    injection F' as <-. congruence.
Qed.

(** ** The handler's effects *)

Lemma entered_frame (w : World) :
  let w1 := snd (setButton busy (snd (clearError w))) in
  the_input w1 = the_input w /\ has_button w1 = has_button w /\
  has_display w1 = has_display w /\ requests w1 = requests w /\
  network w1 = network w.
Proof.
  destruct (setButton_frame busy) as (S1 & S2 & S3 & S4 & S5).
  destruct clearError_frame as (C1 & C2 & C3 & C4 & C5).
  cbv zeta. rewrite S1, S2, S3, S4, S5. repeat split; auto.
Qed.



Lemma handleGetAlerts_input (w : World) (i : Input) :
  state_input (document w) = Some i ->
  (succeeds (value i) w /\
   the_input (snd (handleGetAlerts w)) = Some {| value := [] |})
  \/
  (~ succeeds (value i) w /\ the_input (snd (handleGetAlerts w)) = Some i).
Proof.
  intros H. rewrite (handleGetAlerts_world w i H).
  rewrite (proj1 (setButton_frame idle)).
  destruct (entered_frame w) as (E1 & _ & E3 & _ & E5). cbv zeta in *.
  set (w1 := snd (setButton busy (snd (clearError w)))) in *.
  assert (Hi : the_input w1 = Some i) by (rewrite E1; exact H).
  unfold try_catch.
  destruct (tryBlock_cases (value i) w1) as [(S & C & I)|(S & C & I)];
    destruct (tryBlock (value i) w1) as [[u|e] w2]; simpl in C, I;
    try discriminate.
  - left. split.
    + apply (succeeds_ext _ w1 w); auto.
    + simpl. rewrite I, Hi. reflexivity.
  - right. split.
    + intros S'. apply S. apply (succeeds_ext _ w w1); auto.
    + rewrite (proj1 (displayError_frame (message e))). congruence.
Qed.

Lemma succeeds_nonempty (v : jsstring) (w : World) : succeeds v w -> v <> [].
Proof.
  intros (d & V & _) ->.
  apply validateStateInput_Normal_inv in V. destruct V as [_ V].
  discriminate.
Qed.

(** C8: with the input control on the page, the handler empties its value
    exactly when validation, the fetch and the rendering all complete (the
    value was not empty then); when any of them raises, the control is
    left as it was. *)
Theorem handleGetAlerts_clears_input_iff (w : World) (i : Input) :
  state_input (document w) = Some i ->
  (succeeds (value i) w <->
     state_input (document (snd (handleGetAlerts w))) = Some {| value := [] |} /\
     value i <> []) /\
  (~ succeeds (value i) w ->
     state_input (document (snd (handleGetAlerts w))) = Some i).
Proof.
  intros H. pose proof (handleGetAlerts_input w i H) as C.
  unfold the_input in C. split; [split|].
  - intros S. destruct C as [[_ C]|[N _]]; [|contradiction].
    split; [exact C | exact (succeeds_nonempty _ _ S)].
  - intros [F NE]. destruct C as [[S _]|[_ C]]; [exact S|].
    rewrite C in F. injection F as F. destruct i as [v]. simpl in *.
    congruence.
  - intros N. destruct C as [[S _]|[_ C]]; [contradiction | exact C].
Qed.


(** C6: when the value of the input control fails validation, the handler
    issues no request: it clears the error, enters the busy state, calls
    [displayError] with the validation error's message and leaves the busy
    state; an error element on the page then holds that message and is not
    hidden. *)
Theorem handleGetAlerts_invalid_input (w : World) (i : Input) (e : JsError) :
  state_input (document w) = Some i ->
  validateStateInput (JsString (value i)) = Throw e ->
  handleGetAlerts w =
    (Normal tt,
     snd (setButton idle
       (snd (displayError (message e)
         (snd (setButton busy (snd (clearError w)))))))) /\
  requests (snd (handleGetAlerts w)) = requests w /\
  (forall d, error_message (document w) = Some d ->
     exists classes,
       error_message (document (snd (handleGetAlerts w))) =
         Some {| err_textContent := message e; err_classList := classes |} /\
       ~ In (lit "hidden") classes).
Proof.
  intros Hi V.
  assert (R : handleGetAlerts w =
    (Normal tt,
     snd (setButton idle
       (snd (displayError (message e)
         (snd (setButton busy (snd (clearError w))))))))).
  { rewrite (handleGetAlerts_run w i Hi). unfold try_catch.
    rewrite (tryBlock_invalid _ e _ V). reflexivity. }
  rewrite R. repeat split.
  - unfold snd at 1.
    rewrite (proj1 (proj2 (proj2 (proj2 (setButton_frame idle))))).
    rewrite (proj1 (proj2 (proj2 (displayError_frame (message e))))).
    apply entered_frame.
  - intros d Hd. clear R Hi V.
    destruct w as [[ad em si fb] con net rq]. simpl in Hd. subst em.
    run. eexists. split; [reflexivity|].
    unfold classList_remove. rewrite filter_In. intros [_ F].
    rewrite (proj2 (jsstring_eqb_eq _ _) eq_refl) in F. discriminate.
Qed.

(** C1, amended: on a string that, trimmed and uppercased, matches
    [^[A-Z]{2}$], [validateStateInput] succeeds and returns [true]; the
    trimmed, uppercased two-letter code is computed by the handler, which
    requests the alerts for exactly that code. *)
Theorem validateStateInput_accepts_code (s : jsstring) :
  test_AZ2 (toUpperCase (trim s)) = true ->
  validateStateInput (JsString s) = Normal (JsBool true) /\
  forall w i, state_input (document w) = Some i -> value i = s ->
    requests (snd (handleGetAlerts w)) =
      requests w ++ [API_BASE_URL ++ lit "/alerts/active?area="
                       ++ toUpperCase (trim s)].
Proof.
  intros T. pose proof (validateStateInput_match s T) as V.
  split; [exact V|]. intros w i Hi <-.
  rewrite (handleGetAlerts_world w i Hi).
  rewrite (proj1 (proj2 (proj2 (proj2 (setButton_frame idle))))).
  destruct (entered_frame w) as (_ & _ & _ & E4 & _). cbv zeta in E4.
  rewrite <- E4.
  set (w1 := snd (setButton busy (snd (clearError w)))).
  pose proof (tryBlock_requests (value i) _ w1 V) as Q.
  unfold try_catch. destruct (tryBlock (value i) w1) as [[u|e] w2]; simpl in Q.
  - exact Q.
  - rewrite (proj1 (proj2 (proj2 (displayError_frame (message e))))). exact Q.
Qed.

(** C9, amended: when [validateStateInput] succeeds on a string, it
    succeeds again, with the same value, on the normalized code the handler
    derives from that string, and normalizing that code changes nothing. *)
Theorem normalized_code_revalidates (s : jsstring) (v : JsVal) :
  validateStateInput (JsString s) = Normal v ->
  validateStateInput (JsString (toUpperCase (trim s))) = Normal v /\
  toUpperCase (trim (toUpperCase (trim s))) = toUpperCase (trim s).
Proof.
  intros V. destruct (validateStateInput_Normal_inv s v V) as [-> T].
  assert (E : toUpperCase (trim (toUpperCase (trim s))) = toUpperCase (trim s)).
  { rewrite (trim_AZ2 _ T). apply toUpperCase_AZ2, T. }
  split; [|exact E].
  apply validateStateInput_match. rewrite E. exact T.
Qed.

(** ** More on validation *)

Lemma trimStart_padding (pre s : jsstring) :
  forallb isWhiteSpace pre = true -> trimStart (pre ++ s) = trimStart s.
Proof.
  induction pre as [|c pre IH]; simpl; [reflexivity|].
  intros H. apply andb_true_iff in H. destruct H as [Hc Hp].
  rewrite Hc. apply IH, Hp.
Qed.

Lemma trimStart_blank (s : jsstring) :
  forallb isWhiteSpace s = true -> trimStart s = [].
Proof.
  intros H. rewrite <- (app_nil_r s). rewrite (trimStart_padding s [] H).
  reflexivity.
Qed.

Lemma trimStart_app (s post : jsstring) :
  trimStart s <> [] -> trimStart (s ++ post) = trimStart s ++ post.
Proof.
  induction s as [|c s IH]; simpl; [contradiction|].
  destruct (isWhiteSpace c); [exact IH | reflexivity].
Qed.

Lemma trimStart_all_blank (s : jsstring) :
  trimStart s = [] -> forallb isWhiteSpace s = true.
Proof.
  induction s as [|c s IH]; simpl; [reflexivity|].
  destruct (isWhiteSpace c); [exact IH | discriminate].
Qed.

Lemma forallb_rev {A} (f : A -> bool) (l : list A) :
  forallb f l = true -> forallb f (rev l) = true.
Proof.
  rewrite !forallb_forall. intros H x Hx. apply H, in_rev, Hx.
Qed.

Lemma trimEnd_padding (s post : jsstring) :
  forallb isWhiteSpace post = true -> trimEnd (s ++ post) = trimEnd s.
Proof.
  intros H. unfold trimEnd. rewrite rev_app_distr.
  rewrite (trimStart_padding _ _ (forallb_rev _ _ H)). reflexivity.
Qed.

Lemma trim_padding (pre s post : jsstring) :
  forallb isWhiteSpace pre = true -> forallb isWhiteSpace post = true ->
  trim (pre ++ s ++ post) = trim s.
Proof.
  intros Hpre Hpost. unfold trim. rewrite (trimStart_padding _ _ Hpre).
  destruct (trimStart s) as [|c t] eqn:E.
  - pose proof (trimStart_all_blank s E) as B.
    assert (A : forallb isWhiteSpace (s ++ post) = true)
      by (rewrite forallb_app, B, Hpost; reflexivity).
    rewrite (trimStart_blank _ A). reflexivity.
  - rewrite trimStart_app by (rewrite E; discriminate).
    rewrite E. apply trimEnd_padding, Hpost.
Qed.

(** X13: white space around the input changes neither what
    [validateStateInput] answers nor the code the handler derives. *)
Theorem validateStateInput_ignores_padding (pre s post : jsstring) :
  forallb isWhiteSpace pre = true ->
  forallb isWhiteSpace post = true ->
  validateStateInput (JsString (pre ++ s ++ post)) =
    validateStateInput (JsString s) /\
  toUpperCase (trim (pre ++ s ++ post)) = toUpperCase (trim s).
Proof.
  intros Hpre Hpost. rewrite !validateStateInput_string.
  rewrite (trim_padding pre s post Hpre Hpost). split; reflexivity.
Qed.

Lemma In_trimStart (c : N) (s : jsstring) : In c (trimStart s) -> In c s.
Proof.
  induction s as [|d s IH]; simpl; [tauto|].
  destruct (isWhiteSpace d); simpl; tauto.
Qed.

Lemma trim_basic_latin (s : jsstring) :
  forallb isBasicLatin s = true -> forallb isBasicLatin (trim s) = true.
Proof.
  rewrite !forallb_forall. intros H c Hc. apply H.
  unfold trim, trimEnd in Hc.
  apply in_rev, In_trimStart, in_rev, In_trimStart in Hc. exact Hc.
Qed.

Lemma isAZ_upperBasicLatin (c : N) : isAZ (upperBasicLatin c) = isLetter c.
Proof. unfold isLetter, upperBasicLatin, isAZ. bool_cases. Qed.

(** X14: on an input of Basic Latin characters, [validateStateInput]
    succeeds exactly when the trimmed input is two letters, of either case;
    the code the handler derives is then those letters in upper case. *)
Theorem validateStateInput_basic_latin (s : jsstring) :
  forallb isBasicLatin s = true ->
  (validateStateInput (JsString s) = Normal (JsBool true) <->
   exists a b, trim s = [a; b] /\ isLetter a = true /\ isLetter b = true) /\
  toUpperCase (trim s) = map upperBasicLatin (trim s).
Proof.
  intros B. pose proof (trim_basic_latin s B) as T.
  assert (U : toUpperCase (trim s) = map upperBasicLatin (trim s))
    by (unfold toUpperCase; rewrite T; reflexivity).
  split; [|exact U]. split.
  - intros V. apply validateStateInput_Normal_inv in V. destruct V as [_ V].
    rewrite U in V. destruct (trim s) as [|a [|b [|c t]]]; try discriminate.
    simpl in V. rewrite !isAZ_upperBasicLatin in V.
    apply andb_true_iff in V. exists a, b. tauto.
  - intros (a & b & E & La & Lb). apply validateStateInput_match.
    rewrite U, E. simpl. rewrite !isAZ_upperBasicLatin, La, Lb. reflexivity.
Qed.

(** ** More on the presenter *)

Lemma classList_add_idem (t : jsstring) (l : list jsstring) :
  classList_add t (classList_add t l) = classList_add t l.
Proof.
  unfold classList_add at 2. destruct (existsb (jsstring_eqb t) l) eqn:E.
  - unfold classList_add. rewrite E. reflexivity.
  - unfold classList_add. rewrite E, existsb_app. simpl.
    rewrite (proj2 (jsstring_eqb_eq t t) eq_refl), orb_true_r. reflexivity.
Qed.

Lemma classList_remove_add (t : jsstring) (l : list jsstring) :
  classList_remove t (classList_add t l) = classList_remove t l.
Proof.
  unfold classList_add. destruct (existsb (jsstring_eqb t) l); [reflexivity|].
  unfold classList_remove. rewrite filter_app. simpl.
  rewrite (proj2 (jsstring_eqb_eq t t) eq_refl). simpl. apply app_nil_r.
Qed.

(** X8: clearing the error twice is clearing it once: the class [hidden]
    is not added a second time. *)
Theorem clearError_idempotent (w : World) :
  snd (clearError (snd (clearError w))) = snd (clearError w).
Proof.
  destruct w as [[ad [e|] si fb] con net rq]; run; [|reflexivity].
  cbn [err_classList]. rewrite classList_add_idem. reflexivity.
Qed.

(** X9: showing a message after clearing the error leaves the world as
    showing it directly does: the message is in place, [hidden] is gone and
    the element's other classes are as they were. *)
Theorem displayError_after_clearError (m : jsstring) (w : World) :
  snd (displayError m (snd (clearError w))) = snd (displayError m w).
Proof.
  destruct w as [[ad [e|] si fb] con net rq]; run; [|reflexivity].
  cbn [err_classList]. rewrite classList_remove_add. reflexivity.
Qed.

(** X10: what [displayAlerts] leaves, and whether it raises, does not
    depend on what the display held before, the earlier content being
    discarded; so displaying the same data a second time leaves the page as
    the first time did. *)
Theorem displayAlerts_replaces_content (d : Json) (w : World) :
  (forall old1 old2,
     displayAlerts d (with_document (set_alerts_display (Some old1)) w) =
     displayAlerts d (with_document (set_alerts_display (Some old2)) w)) /\
  document (snd (displayAlerts d (snd (displayAlerts d w)))) =
    document (snd (displayAlerts d w)).
Proof.
  destruct w as [[ad em si fb] con net rq]. split; [reflexivity|].
  destruct ad as [old|]; [|reflexivity].
  destruct d as [|[t [| |[|a fl]]]|]; try reflexivity.
  run. cbn [title features]. cbv beta iota.
  destruct (forEach (a :: fl) []); reflexivity.
Qed.

Lemma forEach_null (l : list (option Alert)) (items : list jsstring) :
  In None l ->
  forEach l items = Throw (TypeError (ReadOfNull (lit "properties"))).
Proof.
  revert items. induction l as [|[a|] l IH]; intros items H.
  - destruct H.
  - simpl. apply IH. destruct H as [H|H]; [discriminate | exact H].
  - reflexivity.
Qed.

(** X11: when some entry of [features] is [null], [displayAlerts] raises
    the engine's [TypeError] for reading [properties] of [null]; the display
    then holds the summary line alone, no list, whatever the entries before
    the [null] one were. *)
Theorem displayAlerts_null_entry (w : World) (old : list Node)
    (r : AlertResponse) (l : list (option Alert)) :
  alerts_display (document w) = Some old ->
  features r = Present l ->
  In None l ->
  fst (displayAlerts (JsonObject r) w) =
    Throw (TypeError (ReadOfNull (lit "properties"))) /\
  alerts_display (document (snd (displayAlerts (JsonObject r) w))) =
    Some [PNode (lit "summary-message")
            (orElse (title r) defaultTitle ++ lit ": "
               ++ decimal (N.of_nat (List.length l)))].
Proof.
  destruct w as [[ad em si fb] con net rq]. simpl. intros -> Hf Hn. run.
  rewrite Hf. destruct l as [|a l]; [destruct Hn|].
  cbv beta iota. rewrite (forEach_null (a :: l) [] Hn). split; reflexivity.
Qed.

(** ** More on the fetch *)

(** X4: every call of [fetchWeatherAlerts] issues exactly one request, for
    the alerts URL of its argument, leaves the page alone and logs exactly
    one line: the data it returns, or the message of the error it raises. *)
Theorem fetchWeatherAlerts_effects (state : jsstring) (w : World) :
  document (snd (fetchWeatherAlerts state w)) = document w /\
  requests (snd (fetchWeatherAlerts state w)) =
    requests w ++ [API_BASE_URL ++ lit "/alerts/active?area=" ++ state] /\
  console (snd (fetchWeatherAlerts state w)) =
    console w ++
      [match fst (fetchWeatherAlerts state w) with
       | Normal data => ConsoleLog (lit "Fetched data:") (ArgData data)
       | Throw error => ConsoleLog (lit "Error:") (ArgString (message error))
       end].
Proof.
  destruct w as [doc con net rq]. run. fold (alertsUrl state).
  destruct (net (alertsUrl state)) as [r|e]; [|repeat split; reflexivity].
  destruct (ok r); [|repeat split; reflexivity].
  destruct (json r); repeat split; reflexivity.
Qed.

(** X5: the [catch] block of [fetchWeatherAlerts] passes on the very error
    it caught: what [fetch] rejects with, and what [response.json()] rejects
    with on a 2xx response, is what the function raises. *)
Theorem fetchWeatherAlerts_rethrows (state : jsstring) (w : World) (e : JsError) :
  network w (alertsUrl state) = Throw e \/
  (exists r, network w (alertsUrl state) = Normal r /\ ok r = true /\
             json r = Throw e) ->
  fst (fetchWeatherAlerts state w) = Throw e.
Proof.
  rewrite fetchWeatherAlerts_fst.
  intros [H|(r & H & O & J)]; rewrite H; [reflexivity|].
  rewrite O. exact J.
Qed.

(** ** More on the trigger handler *)

Lemma error_frames (b : Button) (state : jsstring) (d : Json) :
  keeps the_error (setButton b) /\ keeps the_error (fetchWeatherAlerts state) /\
  keeps the_error (displayAlerts d) /\ keeps the_error clearInput.
Proof.
  unfold setButton, fetchWeatherAlerts, displayAlerts, clearInput.
  repeat split; frame.
Qed.

Lemma display_frames (b : Button) (state : jsstring) (m : jsstring) :
  keeps the_display (setButton b) /\ keeps the_display (fetchWeatherAlerts state) /\
  keeps the_display (displayError m) /\ keeps the_display clearInput /\
  keeps the_display clearError.
Proof.
  unfold setButton, fetchWeatherAlerts, displayError, clearInput, clearError.
  repeat split; frame.
Qed.

Lemma clearError_error (w : World) :
  the_error (snd (clearError w)) =
    option_map (fun d => {| err_textContent := [];
                            err_classList := classList_add (lit "hidden") (err_classList d) |})
      (the_error w).
Proof. destruct w as [[ad [e|] si fb] con net rq]; reflexivity. Qed.

Lemma displayError_error (m : jsstring) (w : World) :
  the_error (snd (displayError m w)) =
    option_map (fun d => {| err_textContent := m;
                            err_classList := classList_remove (lit "hidden") (err_classList d) |})
      (the_error w).
Proof. destruct w as [[ad [e|] si fb] con net rq]; reflexivity. Qed.

Lemma has_display_the_display (w w' : World) :
  the_display w = the_display w' -> has_display w = has_display w'.
Proof. unfold has_display, the_display. intros ->. reflexivity. Qed.

(** What [displayAlerts] leaves in the display is decided by the data and
    by what the display was. *)
Lemma displayAlerts_display_ext (d : Json) (w w' : World) :
  the_display w = the_display w' ->
  the_display (snd (displayAlerts d w)) = the_display (snd (displayAlerts d w')).
Proof.
  destruct w as [[ad em si fb] con net rq].
  destruct w' as [[ad' em' si' fb'] con' net' rq'].
  unfold the_display. simpl. intros <-. destruct ad as [old|]; run; [|reflexivity].
  destruct d as [|r|]; try reflexivity.
  destruct (features r) as [| |[|a fl]]; try reflexivity.
  destruct (forEach (a :: fl) []); reflexivity.
Qed.

Lemma fetchWeatherAlerts_fst_ext (state : jsstring) (w w' : World) :
  network w = network w' ->
  fst (fetchWeatherAlerts state w) = fst (fetchWeatherAlerts state w').
Proof. intros H. rewrite !fetchWeatherAlerts_fst, H. reflexivity. Qed.

(** The [try] block fails before rendering: page untouched. *)
Lemma tryBlock_fails_early (v : jsstring) (e : JsError) (w : World) :
  validateStateInput (JsString v) = Throw e \/
  (validateStateInput (JsString v) = Normal (JsBool true) /\
   fst (fetchWeatherAlerts (toUpperCase (trim v)) w) = Throw e) ->
  fst (tryBlock v w) = Throw e /\
  the_display (snd (tryBlock v w)) = the_display w /\
  the_error (snd (tryBlock v w)) = the_error w.
Proof.
  intros [V|[V F]].
  - rewrite (tryBlock_invalid v e w V). repeat split.
  - rewrite (tryBlock_valid v _ w V). unfold bind.
    pose proof (proj1 (proj2 (display_frames idle (toUpperCase (trim v)) [])) w) as Fd.
    pose proof (proj1 (proj2 (error_frames idle (toUpperCase (trim v)) JsonNull)) w) as Fe.
    destruct (fetchWeatherAlerts (toUpperCase (trim v)) w) as [[d|e'] w2];
      simpl in F, Fd, Fe; [discriminate|].
    injection F as ->. repeat split; assumption.
Qed.

(** The [try] block fails in the rendering. *)
Lemma tryBlock_render_fails (v : jsstring) (data : Json) (e : JsError) (w : World) :
  validateStateInput (JsString v) = Normal (JsBool true) ->
  fst (fetchWeatherAlerts (toUpperCase (trim v)) w) = Normal data ->
  fst (displayAlerts data w) = Throw e ->
  fst (tryBlock v w) = Throw e /\
  the_display (snd (tryBlock v w)) = the_display (snd (displayAlerts data w)) /\
  the_error (snd (tryBlock v w)) = the_error w.
Proof.
  intros V F R. rewrite (tryBlock_valid v _ w V). unfold bind.
  pose proof (proj1 (proj2 (display_frames idle (toUpperCase (trim v)) [])) w) as Fd.
  pose proof (proj1 (proj2 (error_frames idle (toUpperCase (trim v)) JsonNull)) w) as Fe.
  destruct (fetchWeatherAlerts (toUpperCase (trim v)) w) as [[d|e'] w2];
    simpl in F, Fd, Fe; [|discriminate].
  injection F as ->.
  pose proof (displayAlerts_fst data w2 w (has_display_the_display _ _ Fd)) as Dc.
  pose proof (displayAlerts_display_ext data w2 w Fd) as Dd.
  pose proof (proj1 (proj2 (proj2 (error_frames idle [] data))) w2) as De.
  destruct (displayAlerts data w2) as [[u|e'] w3]; simpl in Dc, Dd, De;
    rewrite R in Dc; [discriminate|].
  injection Dc as ->. repeat split; [exact Dd | simpl; congruence].
Qed.

(** The [try] block completes. *)
Lemma tryBlock_completes (v : jsstring) (data : Json) (w : World) :
  validateStateInput (JsString v) = Normal (JsBool true) ->
  fst (fetchWeatherAlerts (toUpperCase (trim v)) w) = Normal data ->
  fst (displayAlerts data w) = Normal tt ->
  fst (tryBlock v w) = Normal tt /\
  the_display (snd (tryBlock v w)) = the_display (snd (displayAlerts data w)) /\
  the_error (snd (tryBlock v w)) = the_error w.
Proof.
  intros V F R. rewrite (tryBlock_valid v _ w V). unfold bind.
  pose proof (proj1 (proj2 (display_frames idle (toUpperCase (trim v)) [])) w) as Fd.
  pose proof (proj1 (proj2 (error_frames idle (toUpperCase (trim v)) JsonNull)) w) as Fe.
  destruct (fetchWeatherAlerts (toUpperCase (trim v)) w) as [[d|e'] w2];
    simpl in F, Fd, Fe; [|discriminate].
  injection F as ->.
  pose proof (displayAlerts_fst data w2 w (has_display_the_display _ _ Fd)) as Dc.
  pose proof (displayAlerts_display_ext data w2 w Fd) as Dd.
  pose proof (proj1 (proj2 (proj2 (error_frames idle [] data))) w2) as De.
  destruct (displayAlerts data w2) as [[[]|e'] w3]; simpl in Dc, Dd, De;
    rewrite R in Dc; [|discriminate].
  pose proof (proj1 (clearInput_run w3)) as C.
  pose proof (proj1 (proj2 (proj2 (proj2 (display_frames idle [] [])))) w3) as Cd.
  pose proof (proj2 (proj2 (proj2 (error_frames idle [] data))) w3) as Ce.
  repeat split; [exact C | congruence | congruence].
Qed.

(** The world the [try] block starts in. *)
Lemma entered_page (w : World) :
  let w1 := snd (setButton busy (snd (clearError w))) in
  the_display w1 = the_display w /\
  the_error w1 =
    option_map (fun d => {| err_textContent := [];
                            err_classList := classList_add (lit "hidden") (err_classList d) |})
      (the_error w).
Proof.
  cbv zeta. split.
  - rewrite (proj1 (display_frames busy [] [])).
    apply (proj2 (proj2 (proj2 (proj2 (display_frames busy [] []))))).
  - rewrite (proj1 (error_frames busy [] JsonNull)). apply clearError_error.
Qed.

(** The page after the handler, from the outcome of its [try] block. *)
Lemma handleGetAlerts_page (w : World) (i : Input) :
  state_input (document w) = Some i ->
  let w1 := snd (setButton busy (snd (clearError w))) in
  the_display (snd (handleGetAlerts w)) = the_display (snd (tryBlock (value i) w1)) /\
  the_error (snd (handleGetAlerts w)) =
    match fst (tryBlock (value i) w1) with
    | Normal _ => the_error (snd (tryBlock (value i) w1))
    | Throw e =>
        option_map (fun d => {| err_textContent := message e;
                                err_classList := classList_remove (lit "hidden") (err_classList d) |})
          (the_error (snd (tryBlock (value i) w1)))
    end.
Proof.
  intros H. cbv zeta. rewrite (handleGetAlerts_world w i H).
  rewrite (proj1 (display_frames idle [] [])), (proj1 (error_frames idle [] JsonNull)).
  unfold try_catch.
  destruct (tryBlock (value i) (snd (setButton busy (snd (clearError w)))))
    as [[u|e] w2]; simpl.
  - split; reflexivity.
  - rewrite (proj1 (proj2 (proj2 (display_frames idle [] (message e))))).
    split; [reflexivity | apply displayError_error].
Qed.

Lemma option_map_shown (m : jsstring) (o : option ErrorDiv) :
  option_map (fun d => {| err_textContent := m;
                          err_classList := classList_remove (lit "hidden") (err_classList d) |})
    (option_map (fun d => {| err_textContent := [];
                             err_classList := classList_add (lit "hidden") (err_classList d) |}) o) =
  option_map (fun d => {| err_textContent := m;
                          err_classList := classList_remove (lit "hidden") (err_classList d) |}) o.
Proof.
  destruct o as [d|]; [|reflexivity]. simpl. rewrite classList_remove_add.
  reflexivity.
Qed.

(** X1: without the input control on the page the handler logs one
    diagnostic and does nothing else: the page is untouched, the trigger
    control is not put in the busy state, no request is issued. *)
Theorem handleGetAlerts_without_input (w : World) :
  state_input (document w) = None ->
  handleGetAlerts w =
    (Normal tt,
     with_console (fun l => l ++ [ConsoleError (lit "State input element not found")]) w).
Proof.
  intros H. unfold handleGetAlerts. unfold bind at 1.
  unfold getElementById, gets. rewrite H. reflexivity.
Qed.

(** X2: the handler never raises, whatever the page holds and whatever the
    network answers: every exception of validation, fetch or rendering ends
    in its [catch] block. *)
Theorem handleGetAlerts_never_raises (w : World) :
  fst (handleGetAlerts w) = Normal tt.
Proof.
  destruct (state_input (document w)) as [i|] eqn:H.
  - rewrite (handleGetAlerts_run w i H). reflexivity.
  - unfold handleGetAlerts. unfold bind at 1.
    unfold getElementById, gets. rewrite H. reflexivity.
Qed.

Lemma handleGetAlerts_requests_run (w : World) (i : Input) :
  state_input (document w) = Some i ->
  requests (snd (handleGetAlerts w)) =
    requests (snd (tryBlock (value i) (snd (setButton busy (snd (clearError w)))))).
Proof.
  intros H. rewrite (handleGetAlerts_world w i H).
  rewrite (proj1 (proj2 (proj2 (proj2 (setButton_frame idle))))).
  unfold try_catch.
  destruct (tryBlock (value i) (snd (setButton busy (snd (clearError w)))))
    as [[u|e] w2]; simpl; [reflexivity|].
  apply (proj1 (proj2 (proj2 (displayError_frame (message e))))).
Qed.

(** X3: one run of the handler issues at most one request, and a request
    it issues is for an area of exactly two letters [A]-[Z]. *)
Theorem handleGetAlerts_requests_two_letters (w : World) :
  requests (snd (handleGetAlerts w)) = requests w \/
  exists a b, isAZ a = true /\ isAZ b = true /\
    requests (snd (handleGetAlerts w)) =
      requests w ++ [API_BASE_URL ++ lit "/alerts/active?area=" ++ [a; b]].
Proof.
  destruct (state_input (document w)) as [i|] eqn:H.
  2:{ left. unfold handleGetAlerts. unfold bind at 1.
      unfold getElementById, gets. rewrite H. reflexivity. }
  rewrite (handleGetAlerts_requests_run w i H).
  destruct (entered_frame w) as (_ & _ & _ & E4 & _). cbv zeta in E4.
  destruct (validateStateInput (JsString (value i))) as [u|e] eqn:V.
  - right. destruct (validateStateInput_Normal_inv _ _ V) as [_ T].
    destruct (test_AZ2_inv _ T) as (a & b & E & Ha & Hb).
    exists a, b. repeat split; try assumption.
    rewrite (tryBlock_requests _ _ _ V), E4, E. reflexivity.
  - left. rewrite (tryBlock_invalid _ _ _ V). exact E4.
Qed.

(** X6: when validation fails, or the fetch fails (no answer, a status
    outside 200-299, a body that does not parse), the handler leaves the
    display as it was, alerts of an earlier run included, and an error
    element on the page ends with the error's message, without [hidden] and
    with its other classes kept. *)
Theorem handleGetAlerts_early_failure (w : World) (i : Input) (e : JsError) :
  state_input (document w) = Some i ->
  validateStateInput (JsString (value i)) = Throw e \/
  (validateStateInput (JsString (value i)) = Normal (JsBool true) /\
   fst (fetchWeatherAlerts (toUpperCase (trim (value i))) w) = Throw e) ->
  alerts_display (document (snd (handleGetAlerts w))) = alerts_display (document w) /\
  error_message (document (snd (handleGetAlerts w))) =
    option_map (fun d => {| err_textContent := message e;
                            err_classList := classList_remove (lit "hidden") (err_classList d) |})
      (error_message (document w)).
Proof.
  intros H F.
  destruct (handleGetAlerts_page w i H) as [Pd Pe].
  destruct (entered_page w) as [Ed Ee].
  destruct (entered_frame w) as (_ & _ & _ & _ & En).
  cbv zeta in *. set (w1 := snd (setButton busy (snd (clearError w)))) in *.
  assert (F1 : validateStateInput (JsString (value i)) = Throw e \/
    (validateStateInput (JsString (value i)) = Normal (JsBool true) /\
     fst (fetchWeatherAlerts (toUpperCase (trim (value i))) w1) = Throw e)).
  { destruct F as [V|[V F]]; [left; exact V | right; split; [exact V|]].
    rewrite (fetchWeatherAlerts_fst_ext _ w1 w En). exact F. }
  destruct (tryBlock_fails_early _ _ _ F1) as (Tc & Td & Te).
  unfold the_display, the_error in *. split.
  - rewrite Pd, Td. exact Ed.
  - rewrite Pe, Tc, Te, Ee. apply option_map_shown.
Qed.

(** X7: when validation, the fetch and the rendering all complete, the
    display holds what [displayAlerts] makes of the fetched data, and an
    error element on the page is left empty and [hidden]: the message of an
    earlier failure is gone. *)
Theorem handleGetAlerts_success (w : World) (i : Input) (data : Json) :
  state_input (document w) = Some i ->
  validateStateInput (JsString (value i)) = Normal (JsBool true) ->
  fst (fetchWeatherAlerts (toUpperCase (trim (value i))) w) = Normal data ->
  fst (displayAlerts data w) = Normal tt ->
  alerts_display (document (snd (handleGetAlerts w))) =
    alerts_display (document (snd (displayAlerts data w))) /\
  error_message (document (snd (handleGetAlerts w))) =
    option_map (fun d => {| err_textContent := [];
                            err_classList := classList_add (lit "hidden") (err_classList d) |})
      (error_message (document w)).
Proof.
  intros H V F R.
  destruct (handleGetAlerts_page w i H) as [Pd Pe].
  destruct (entered_page w) as [Ed Ee].
  destruct (entered_frame w) as (_ & _ & _ & _ & En).
  cbv zeta in *. set (w1 := snd (setButton busy (snd (clearError w)))) in *.
  rewrite <- (fetchWeatherAlerts_fst_ext _ w1 w En) in F.
  rewrite <- (displayAlerts_fst data w1 w (has_display_the_display _ _ Ed)) in R.
  destruct (tryBlock_completes _ _ _ V F R) as (Tc & Td & Te).
  pose proof (displayAlerts_display_ext data w1 w Ed) as X.
  unfold the_display, the_error in *. split.
  - rewrite Pd, Td. exact X.
  - rewrite Pe, Tc, Te. exact Ee.
Qed.

(** X12: when the rendering raises (a [null] body, a [null] entry of
    [features]), the display is left as [displayAlerts] left it at that
    point, the earlier content gone, and an error element on the page ends
    with the message of the engine's error. *)
Theorem handleGetAlerts_render_failure (w : World) (i : Input) (data : Json)
    (e : JsError) :
  state_input (document w) = Some i ->
  validateStateInput (JsString (value i)) = Normal (JsBool true) ->
  fst (fetchWeatherAlerts (toUpperCase (trim (value i))) w) = Normal data ->
  fst (displayAlerts data w) = Throw e ->
  alerts_display (document (snd (handleGetAlerts w))) =
    alerts_display (document (snd (displayAlerts data w))) /\
  error_message (document (snd (handleGetAlerts w))) =
    option_map (fun d => {| err_textContent := message e;
                            err_classList := classList_remove (lit "hidden") (err_classList d) |})
      (error_message (document w)).
Proof.
  intros H V F R.
  destruct (handleGetAlerts_page w i H) as [Pd Pe].
  destruct (entered_page w) as [Ed Ee].
  destruct (entered_frame w) as (_ & _ & _ & _ & En).
  cbv zeta in *. set (w1 := snd (setButton busy (snd (clearError w)))) in *.
  rewrite <- (fetchWeatherAlerts_fst_ext _ w1 w En) in F.
  rewrite <- (displayAlerts_fst data w1 w (has_display_the_display _ _ Ed)) in R.
  destruct (tryBlock_render_fails _ _ _ _ V F R) as (Tc & Td & Te).
  pose proof (displayAlerts_display_ext data w1 w Ed) as X.
  unfold the_display, the_error in *. split.
  - rewrite Pd, Td. exact X.
  - rewrite Pe, Tc, Te, Ee. apply option_map_shown.
Qed.




End Engine.


(** ** Closed instances *)

(** C2 at ["c1"], ["   "] and ["ny"]. *)
Lemma validateStateInput_throws_iff_invalid_witness :
  validateStateInput idUpper (JsString (lit "c1")) = Throw (Error formatMessage) /\
  validateStateInput idUpper (JsString (lit "   ")) = Throw (Error emptyMessage) /\
  validateStateInput idUpper (JsString (lit "ny")) = Normal (JsBool true).
Proof.
  split; [|split].
  - apply (validateStateInput_throws_iff_invalid idUpper (lit "c1"));
      [discriminate | reflexivity].
  - apply (validateStateInput_throws_iff_invalid idUpper (lit "   ")).
    reflexivity.
  - apply (validateStateInput_throws_iff_invalid idUpper (lit "ny")).
    reflexivity.
Defined.

(** C1 as stated fails at [" ca "]: the code is ["CA"], the value returned
    is [true]. *)
Lemma validateStateInput_returns_code_counterexample :
  toUpperCase idUpper (trim (lit " ca ")) = lit "CA" /\
  test_AZ2 (toUpperCase idUpper (trim (lit " ca "))) = true /\
  validateStateInput idUpper (JsString (lit " ca ")) = Normal (JsBool true) /\
  validateStateInput idUpper (JsString (lit " ca "))
    <> Normal (JsString (lit "CA")).
Proof. repeat split; try reflexivity. discriminate. Qed.

(** C1, amended, at [" ca "]. *)
Lemma validateStateInput_accepts_code_witness :
  validateStateInput idUpper (JsString (lit " ca ")) = Normal (JsBool true) /\
  requests (snd (handleGetAlerts idUpper v8Message
                   (session (lit " ca ") (Normal twoAlerts)))) =
    [lit "https://api.weather.gov/alerts/active?area=CA"].
Proof.
  destruct (validateStateInput_accepts_code idUpper v8Message (lit " ca ")
              eq_refl) as [V R].
  split; [exact V|].
  exact (R (session (lit " ca ") (Normal twoAlerts)) _ eq_refl eq_refl).
Defined.

(** C9 as stated fails at [" ca "]: the value returned is [true], and
    [validateStateInput(true)] raises. *)
Lemma revalidate_returned_value_counterexample :
  validateStateInput idUpper (JsString (lit " ca ")) = Normal (JsBool true) /\
  validateStateInput idUpper (JsBool true) =
    Throw (TypeError (NotAFunction (lit "state.trim"))) /\
  validateStateInput idUpper (JsBool true) <> Normal (JsBool true).
Proof. repeat split; try reflexivity. discriminate. Qed.

(** C9, amended, at [" ca "]. *)
Lemma normalized_code_revalidates_witness :
  validateStateInput idUpper (JsString (lit "CA")) = Normal (JsBool true) /\
  toUpperCase idUpper (trim (lit "CA")) = lit "CA".
Proof.
  exact (normalized_code_revalidates idUpper (lit " ca ") (JsBool true) eq_refl).
Defined.

(** C3 as stated fails on an empty title and on an empty headline: both
    are present, and the code shows the defaults. *)
Lemma displayAlerts_empty_strings_counterexample :
  let r1 := {| title := Present []; features := Absent |} in
  let a := {| properties := Present {| headline := Present [] |} |} in
  let r2 := {| title := Present (lit "T"); features := Present [Some a] |} in
  let w := session [] (Normal JsonNull) in
  alerts_display (document (snd (displayAlerts (JsonObject r1) w))) =
    Some [PNode (lit "summary-message")
            (lit "Current watches, warnings, and advisories: 0")] /\
  alerts_display (document (snd (displayAlerts (JsonObject r1) w)))
    <> Some (spec_renderSuccess r1 []) /\
  alerts_display (document (snd (displayAlerts (JsonObject r2) w))) =
    Some [PNode (lit "summary-message") (lit "T: 1");
          ULNode (lit "alerts-list") [lit "No headline available"]] /\
  alerts_display (document (snd (displayAlerts (JsonObject r2) w)))
    <> Some (spec_renderSuccess r2 [a]).
Proof. repeat split; try reflexivity; discriminate. Qed.

(** C3, amended, on the body
    [{"title":"T","features":[{"properties":{"headline":"H1"}},{"properties":{}}]}]. *)
Lemma displayAlerts_renders_witness :
  exists w',
    displayAlerts twoAlerts (session [] (Normal twoAlerts)) = (Normal tt, w') /\
    alerts_display (document w') =
      Some [PNode (lit "summary-message") (lit "T: 2");
            ULNode (lit "alerts-list") [lit "H1"; lit "No headline available"]].
Proof.
  exact (proj1 (displayAlerts_renders (session [] (Normal twoAlerts)) []
    {| title := Present (lit "T");
       features := Present
         [Some {| properties := Present {| headline := Present (lit "H1") |} |};
          Some {| properties := Present {| headline := Absent |} |}] |}
    [{| properties := Present {| headline := Present (lit "H1") |} |};
     {| properties := Present {| headline := Absent |} |}]
    eq_refl eq_refl)).
Defined.

(** C10 as stated fails on [{"features":[{},null]}]: the first entry has
    no [properties], yet [displayAlerts] raises, on the [null] entry after
    it, and no item at all is rendered, the list never being attached. *)
Lemma displayAlerts_null_sibling_counterexample :
  let r := {| title := Absent;
              features := Present [Some {| properties := Absent |}; None] |} in
  let w := session [] (Normal (JsonObject r)) in
  headlineOf (Some {| properties := Absent |}) = Normal noHeadline /\
  fst (displayAlerts (JsonObject r) w) =
    Throw (TypeError (ReadOfNull (lit "properties"))) /\
  fst (displayAlerts (JsonObject r) w) <> Normal tt /\
  alerts_display (document (snd (displayAlerts (JsonObject r) w))) =
    Some [PNode (lit "summary-message")
            (lit "Current watches, warnings, and advisories: 2")].
Proof. repeat split; try reflexivity. discriminate. Qed.

(** C10, amended, on [{"features":[{},{"properties":null}]}]. *)
Lemma displayAlerts_missing_properties_witness :
  let r := {| title := Absent;
              features := Present [Some {| properties := Absent |};
                                   Some {| properties := Null |}] |} in
  fst (displayAlerts (JsonObject r) (session [] (Normal (JsonObject r)))) = Normal tt /\
  exists summary items,
    alerts_display (document (snd (displayAlerts (JsonObject r)
                                     (session [] (Normal (JsonObject r)))))) =
      Some [summary; ULNode (lit "alerts-list") items] /\
    nth_error items 1 = Some noHeadline.
Proof.
  intros r.
  destruct (displayAlerts_missing_properties
              (session [] (Normal (JsonObject r))) [] r
              [{| properties := Absent |}; {| properties := Null |}]
              eq_refl eq_refl) as [R I].
  split; [exact R|].
  exact (proj2 (I 1%nat {| properties := Null |} eq_refl (or_intror eq_refl))).
Defined.

(** C7 as stated fails for [clearError] and [clearInput]: on a page without
    their elements they log nothing. *)
Lemma clearError_no_diagnostic_counterexample :
  let w := world blankPage offline in
  error_message (document w) = None /\ console (snd (clearError w)) = [] /\
  state_input (document w) = None /\ console (snd (clearInput w)) = [] /\
  ~ (exists entry, console (snd (clearError w)) = console w ++ [entry]).
Proof.
  repeat split. intros [entry H]. discriminate.
Qed.

(** C7, amended, on a page without any of the four elements. *)
Lemma presenter_without_target_witness :
  console (snd (displayAlerts twoAlerts (world blankPage offline))) =
    [ConsoleError (lit "Alerts display element not found")] /\
  console (snd (displayError (lit "oops") (world blankPage offline))) =
    [ConsoleError (lit "Error message element not found")] /\
  clearError (world blankPage offline) = (Normal tt, world blankPage offline) /\
  clearInput (world blankPage offline) = (Normal tt, world blankPage offline).
Proof.
  destruct (presenter_without_target (world blankPage offline))
    as (A & E & C & I).
  split; [|split; [|split]].
  - exact (proj2 (proj2 (A twoAlerts eq_refl))).
  - exact (proj2 (proj2 (E (lit "oops") eq_refl))).
  - exact (C eq_refl).
  - exact (I eq_refl).
Defined.

(** C4 on a response with status 500, "Internal Server Error". *)
Lemma fetchWeatherAlerts_fails_iff_witness :
  fst (fetchWeatherAlerts v8Message (lit "NY")
         (world (page [] buttonLabel) (respond status500))) =
    Throw (Error (lit "API Error: 500 Internal Server Error")).
Proof.
  exact (proj1 (proj2 (fetchWeatherAlerts_fails_iff v8Message (lit "NY")
    (world (page [] buttonLabel) (respond status500)) status500 eq_refl))
    eq_refl).
Defined.



(** C6 at the input ["1"]. *)
Lemma handleGetAlerts_invalid_input_witness :
  requests (snd (handleGetAlerts idUpper v8Message
                   (session (lit "1") (Normal twoAlerts)))) = [] /\
  exists classes,
    error_message (document (snd (handleGetAlerts idUpper v8Message
                                    (session (lit "1") (Normal twoAlerts))))) =
      Some {| err_textContent := lit "State abbreviation must be exactly 2 letters";
              err_classList := classes |} /\
    ~ In (lit "hidden") classes.
Proof.
  destruct (handleGetAlerts_invalid_input idUpper v8Message
              (session (lit "1") (Normal twoAlerts)) _ (Error formatMessage)
              eq_refl eq_refl) as (_ & R & E).
  split; [exact R|]. exact (E _ eq_refl).
Defined.

(** C8 on the success path (input [" ny "]) and on a path where the
    rendering raises (body [null]). *)
Lemma handleGetAlerts_clears_input_iff_witness :
  state_input (document (snd (handleGetAlerts idUpper v8Message
                                (session (lit " ny ") (Normal twoAlerts))))) =
    Some {| value := [] |} /\
  state_input (document (snd (handleGetAlerts idUpper v8Message
                                (session (lit " ny ") (Normal JsonNull))))) =
    Some {| value := lit " ny " |}.
Proof.
  split.
  - apply (handleGetAlerts_clears_input_iff idUpper v8Message
             (session (lit " ny ") (Normal twoAlerts)) _ eq_refl).
    exists twoAlerts. repeat split.
  - apply (handleGetAlerts_clears_input_iff idUpper v8Message
             (session (lit " ny ") (Normal JsonNull)) _ eq_refl).
    intros (d & _ & F & R).
    assert (D : d = JsonNull) by (injection F as <-; reflexivity).
    subst d. discriminate R.
Defined.

(** ** The specification's worked examples *)

Example validate_examples :
  validateStateInput idUpper (JsString []) = Throw (Error emptyMessage) /\
  validateStateInput idUpper (JsString (lit "c")) = Throw (Error formatMessage) /\
  validateStateInput idUpper (JsString (lit "cali")) = Throw (Error formatMessage).
Proof. repeat split. Qed.

Example empty_body_example :
  alerts_display (document (snd (displayAlerts (JsonObject noMembers)
                                   (session [] (Normal JsonNull))))) =
    Some [PNode (lit "summary-message")
            (lit "Current watches, warnings, and advisories: 0")].
Proof. reflexivity. Qed.

Example end_to_end_example :
  handleGetAlerts idUpper v8Message (session (lit " ny ") (Normal twoAlerts)) =
    (Normal tt,
     {| document :=
          {| alerts_display := Some
               [PNode (lit "summary-message") (lit "T: 2");
                ULNode (lit "alerts-list") [lit "H1"; lit "No headline available"]];
             error_message := Some
               {| err_textContent := []; err_classList := [lit "hidden"] |};
             state_input := Some {| value := [] |};
             fetch_alerts := Some idle |};
        console := [ConsoleLog (lit "Fetched data:") (ArgData twoAlerts)];
        network := respond (ok200 (Normal twoAlerts));
        requests := [lit "https://api.weather.gov/alerts/active?area=NY"] |}).
Proof. reflexivity. Qed.

Example server_error_example :
  error_message (document (snd (handleGetAlerts idUpper v8Message
    (world (page (lit "ny") buttonLabel) (respond status500))))) =
    Some {| err_textContent := lit "API Error: 500 Internal Server Error";
            err_classList := [] |}.
Proof. reflexivity. Qed.

(** ** Closed instances of the further properties *)

(** X1 on a page without any element. *)
Lemma handleGetAlerts_without_input_witness :
  handleGetAlerts idUpper v8Message (world blankPage offline) =
    (Normal tt,
     {| document := blankPage;
        console := [ConsoleError (lit "State input element not found")];
        network := offline; requests := [] |}).
Proof.
  exact (handleGetAlerts_without_input idUpper v8Message
           (world blankPage offline) eq_refl).
Defined.

(** X5 when the network is down. *)
Lemma fetchWeatherAlerts_rethrows_witness :
  fst (fetchWeatherAlerts v8Message (lit "NY") (world (page [] buttonLabel) offline)) =
    Throw (HostError (lit "Failed to fetch")).
Proof.
  exact (fetchWeatherAlerts_rethrows v8Message (lit "NY")
           (world (page [] buttonLabel) offline) _ (or_introl eq_refl)).
Defined.

(** X6 on a status 500, with the alerts of an earlier run on the page. *)
Lemma handleGetAlerts_early_failure_witness :
  let stale := [PNode (lit "summary-message") (lit "T: 0")] in
  let w := world {| alerts_display := Some stale;
                    error_message := Some {| err_textContent := [];
                                             err_classList := [lit "hidden"; lit "alert"] |};
                    state_input := Some {| value := lit "ny" |};
                    fetch_alerts := Some idle |}
                 (respond status500) in
  alerts_display (document (snd (handleGetAlerts idUpper v8Message w))) = Some stale /\
  error_message (document (snd (handleGetAlerts idUpper v8Message w))) =
    Some {| err_textContent := lit "API Error: 500 Internal Server Error";
            err_classList := [lit "alert"] |}.
Proof.
  intros stale w.
  exact (handleGetAlerts_early_failure idUpper v8Message w _
           (Error (lit "API Error: 500 Internal Server Error")) eq_refl
           (or_intror (conj eq_refl eq_refl))).
Defined.

(** X7 on the input [" ny "] and a body with two alerts. *)
Lemma handleGetAlerts_success_witness :
  alerts_display (document (snd (handleGetAlerts idUpper v8Message
                                   (session (lit " ny ") (Normal twoAlerts))))) =
    Some [PNode (lit "summary-message") (lit "T: 2");
          ULNode (lit "alerts-list") [lit "H1"; lit "No headline available"]] /\
  error_message (document (snd (handleGetAlerts idUpper v8Message
                                  (session (lit " ny ") (Normal twoAlerts))))) =
    Some {| err_textContent := []; err_classList := [lit "hidden"] |}.
Proof.
  exact (handleGetAlerts_success idUpper v8Message
           (session (lit " ny ") (Normal twoAlerts)) _ twoAlerts
           eq_refl eq_refl eq_refl eq_refl).
Defined.

(** X11 on [{"features":[{"properties":{"headline":"H1"}},null]}]. *)
Lemma displayAlerts_null_entry_witness :
  let r := {| title := Absent;
              features := Present
                [Some {| properties := Present {| headline := Present (lit "H1") |} |};
                 None] |} in
  fst (displayAlerts (JsonObject r) (session [] (Normal (JsonObject r)))) =
    Throw (TypeError (ReadOfNull (lit "properties"))) /\
  alerts_display (document (snd (displayAlerts (JsonObject r)
                                   (session [] (Normal (JsonObject r)))))) =
    Some [PNode (lit "summary-message")
            (lit "Current watches, warnings, and advisories: 2")].
Proof.
  intros r.
  exact (displayAlerts_null_entry (session [] (Normal (JsonObject r))) [] r _
           eq_refl eq_refl (or_intror (or_introl eq_refl))).
Defined.

(** X12 on a 2xx response whose body is [null]. *)
Lemma handleGetAlerts_render_failure_witness :
  alerts_display (document (snd (handleGetAlerts idUpper v8Message
                                   (session (lit "ny") (Normal JsonNull))))) = Some [] /\
  error_message (document (snd (handleGetAlerts idUpper v8Message
                                  (session (lit "ny") (Normal JsonNull))))) =
    Some {| err_textContent :=
              lit "Cannot read properties of null (reading 'title')";
            err_classList := [] |}.
Proof.
  exact (handleGetAlerts_render_failure idUpper v8Message
           (session (lit "ny") (Normal JsonNull)) _ JsonNull
           (TypeError (ReadOfNull (lit "title")))
           eq_refl eq_refl eq_refl eq_refl).
Defined.

(** X13 on ["ca"] between a space, a no-break space, a tab and a line
    feed. *)
Lemma validateStateInput_ignores_padding_witness :
  validateStateInput idUpper (JsString ([32; 160] ++ lit "ca" ++ [9; 10])) =
    validateStateInput idUpper (JsString (lit "ca")) /\
  toUpperCase idUpper (trim ([32; 160] ++ lit "ca" ++ [9; 10])) =
    toUpperCase idUpper (trim (lit "ca")).
Proof.
  exact (validateStateInput_ignores_padding idUpper [32; 160] (lit "ca") [9; 10]
           eq_refl eq_refl).
Defined.

(** X14 on [" nY "] and on ["n1"]. *)
Lemma validateStateInput_basic_latin_witness :
  validateStateInput idUpper (JsString (lit " nY ")) = Normal (JsBool true) /\
  toUpperCase idUpper (trim (lit " nY ")) = lit "NY" /\
  ~ (exists a b, trim (lit "n1") = [a; b] /\ isLetter a = true /\ isLetter b = true).
Proof.
  destruct (validateStateInput_basic_latin idUpper (lit " nY ") eq_refl) as [I U].
  split; [|split].
  - apply I. exists 110, 89. repeat split.
  - exact U.
  - intros H.
    apply (validateStateInput_basic_latin idUpper (lit "n1") eq_refl) in H.
    discriminate H.
Defined.

